(** * server.js: the Wise MVP web server

    A shallow embedding of [src/server.js] and of the Node.js built-ins it
    calls ([JSON.stringify], [decodeURIComponent], [path.join],
    [path.extname], [String.prototype.toLowerCase], [Number.parseInt],
    [fs.readFile], [res.writeHead], [res.end], [server.listen]).

    Conventions.
    - A JavaScript string is a [string] holding its UTF-8 encoding, which is
      also what [res.end] puts on the wire.  Every character the built-ins
      below inspect (slash, dot, percent, quote, backslash, digits, letters)
      is ASCII, and no byte of a multi-byte UTF-8 sequence is ASCII, so
      working on bytes agrees with working on UTF-16 code units.
    - A [Buffer] is a [list byte].
    - [undefined] is [None].
    - Paths follow [path.posix].
    - A thrown exception is the [Throw] outcome of the [Eval] monad.
    - The module-level objects [data] and [mimeTypes] live in a mutable
      store ([Globals]) that every request handler receives and returns. *)

From Stdlib Require Import Strings.String Strings.Ascii Strings.Byte Lists.List.
From Stdlib Require Import ZArith NArith Lia Bool.
Import ListNotations.

Open Scope list_scope.
Open Scope string_scope.

(** ** JavaScript strings *)

Definition DQUOTE : ascii := ascii_of_nat 34.
Definition BACKSLASH : ascii := ascii_of_nat 92.
Definition SLASH : ascii := "/"%char.
Definition DOT : ascii := "."%char.
Definition PERCENT : ascii := "%"%char.

(** Strict equality [a === b] on strings. *)
Definition str_eq (a b : string) : bool := String.eqb a b.
Infix "===" := str_eq (at level 68, no associativity).

(** [ToBoolean] on a string: only the empty string is falsy. *)
Definition truthy (s : string) : bool := negb (s === "").

(** [a || b] where [a] may be [undefined]. *)
Definition or_else (a : option string) (b : string) : string :=
  match a with
  | Some s => if truthy s then s else b
  | None => b
  end.

(** A text written with an apostrophe wherever it has a double quote. *)
Fixpoint double_quoted (s : string) : string :=
  match s with
  | EmptyString => ""
  | String c rest =>
      String (if Ascii.eqb c "'" then DQUOTE else c) (double_quoted rest)
  end.

(** [Array.prototype.join]. *)
Fixpoint join_with (sep : string) (l : list string) : string :=
  match l with
  | [] => ""
  | [x] => x
  | x :: rest => x ++ sep ++ join_with sep rest
  end.

(** Own-property read [obj[k]] on the property list of an object: the first
    entry wins, as the property names of an object are unique. *)
Fixpoint assoc {A : Type} (k : string) (props : list (string * A)) : option A :=
  match props with
  | [] => None
  | (k', x) :: rest => if k' === k then Some x else assoc k rest
  end.

(** ** JSON values and [JSON.stringify] *)

Module JSON.

(** The values [data] is built from.  The property list of an object is in
    the order [JSON.stringify] enumerates it (insertion order, for keys that
    are not array indices). *)
#[warnings="-register-all"] Inductive JsValue : Type :=
| JString (s : string)
| JArray (elems : list JsValue)
| JObject (props : list (string * JsValue)).

Definition hex_digits : list ascii :=
  ["0"; "1"; "2"; "3"; "4"; "5"; "6"; "7"; "8"; "9";
   "a"; "b"; "c"; "d"; "e"; "f"]%char.

Definition hex_digit (n : nat) : ascii := nth n hex_digits "0"%char.

(** One code unit of [QuoteJSONString]: the quote and the backslash are
    escaped, the five control characters with a short form use it, any other
    code unit below 0x20 becomes [\u00XX], and everything else is copied. *)
Definition quote_char (c : ascii) : string :=
  let n := nat_of_ascii c in
  if Nat.eqb n 34 then String BACKSLASH (String DQUOTE "")
  else if Nat.eqb n 92 then String BACKSLASH (String BACKSLASH "")
  else if Nat.eqb n 8 then String BACKSLASH "b"
  else if Nat.eqb n 12 then String BACKSLASH "f"
  else if Nat.eqb n 10 then String BACKSLASH "n"
  else if Nat.eqb n 13 then String BACKSLASH "r"
  else if Nat.eqb n 9 then String BACKSLASH "t"
  else if Nat.ltb n 32 then
    String BACKSLASH
      ("u00" ++ String (hex_digit (n / 16)) (String (hex_digit (n mod 16)) ""))
  else String c "".

Fixpoint quote_body (s : string) : string :=
  match s with
  | EmptyString => ""
  | String c rest => quote_char c ++ quote_body rest
  end.

Definition QuoteJSONString (s : string) : string :=
  String DQUOTE (quote_body s ++ String DQUOTE "").

(** [JSON.stringify(v)] with no replacer and no indentation. *)
Fixpoint stringify (v : JsValue) : string :=
  match v with
  | JString s => QuoteJSONString s
  | JArray elems => "[" ++ join_with "," (map stringify elems) ++ "]"
  | JObject props =>
      "{" ++ join_with ","
               (map (fun kv => match kv with
                               | (k, x) => QuoteJSONString k ++ ":" ++ stringify x
                               end) props)
          ++ "}"
  end.

(** [Object.keys]. *)
Definition keys (v : JsValue) : list string :=
  match v with
  | JObject props => map fst props
  | _ => []
  end.

Definition get (v : JsValue) (k : string) : option JsValue :=
  match v with
  | JObject props => assoc k props
  | _ => None
  end.

End JSON.
Import JSON.

(** ** The constants of server.js *)

(** [const data = { ... }] (lines 23-69). *)
Definition data : JsValue :=
  JObject
    [ ("problem",
       JString "Moving money across borders with traditional banks is slow, costly and lacks transparency. Exchange rates often include hidden mark‑ups and customers rarely know the full cost upfront.")
    ; ("solution",
       JArray
         [ JString "Open a single account to hold and convert more than 40 currencies."
         ; JString "Send payments to over 70 countries using the mid‑market rate and low fees."
         ; JString "Spend or withdraw cash in 160+ countries with a Wise card; freeze and unfreeze the card in‑app."
         ; JString "Transfers are protected with two‑factor authentication, encryption and biometrics."
         ])
    ; ("coreFeatures",
       JArray
         [ JString "Multi‑currency wallet with instant conversion between 40+ currencies."
         ; JString "Low, transparent transfer fees starting from around 0.43%."
         ; JString "Fast transfers — over 65% arrive in under 20 seconds."
         ; JString "Local account details for 9 currencies so you can get paid like a local."
         ; JString "Wise card for global spending and cash withdrawals with automatic currency conversion."
         ; JString "In‑app dashboard to track balances, transfers and transaction history."
         ])
    ; ("targetUsers",
       JArray
         [ JString "Freelancers and remote workers paid in multiple currencies."
         ; JString "Expats and travellers managing money abroad."
         ; JString "Small businesses paying overseas suppliers and contractors."
         ; JString "Individuals sending money to family in other countries."
         ])
    ; ("valueProposition",
       JArray
         [ JString "Real mid‑market exchange rates with no hidden mark‑ups."
         ; JString "Faster transfers than traditional banks — many arrive instantly."
         ; JString "Transparent pricing displayed before you send."
         ; JString "Local account details make receiving payments simple and often free."
         ; JString "Regulated money services business, using two‑factor authentication and encryption."
         ])
    ; ("successMetrics",
       JArray
         [ JString "Growth in transfer volume and repeat transactions."
         ; JString "Retention of active users and frequency of app usage."
         ; JString "App Store rating (currently 4.7/5 with 91k+ reviews)."
         ; JString "Expansion of the customer base (16 million+ users worldwide)."
         ])
    ; ("techStack",
       JArray
         [ JString "Native apps for iOS and Android devices."
         ; JString "Back‑end integrations with global banking networks and payment rails."
         ; JString "Security features including two‑factor authentication, encryption and biometric logins."
         ; JString "Wise operates as a Money Service Business rather than a bank, safeguarding funds through partner banks."
         ])
    ; ("monetization",
       JArray
         [ JString "Small flat fees and a low margin on currency conversion."
         ; JString "Interest on USD balances for eligible US customers."
         ])
    ].

(** [const mimeTypes = { ... }] (lines 72-81). *)
Definition mimeTypes : list (string * string) :=
  [ (".html", "text/html; charset=UTF-8")
  ; (".css", "text/css; charset=UTF-8")
  ; (".js", "text/javascript; charset=UTF-8")
  ; (".json", "application/json; charset=UTF-8")
  ; (".png", "image/png")
  ; (".jpg", "image/jpeg")
  ; (".jpeg", "image/jpeg")
  ; (".svg", "image/svg+xml")
  ].

(** ** Exceptions *)

(** [URIError] is thrown by [decodeURIComponent]; [TypeError] stands for the
    ERR_INVALID_ARG_VALUE that [fs.readFile] throws for a path that holds a
    null byte. *)
Inductive JsError : Type :=
| URIError
| TypeError.

Inductive Completion (A : Type) : Type :=
| Normal (a : A)
| Throw (e : JsError).
Arguments Normal {A} a.
Arguments Throw {A} e.

(** ** [decodeURIComponent] *)

Module URI.

Local Open Scope N_scope.

Definition hex_value (c : ascii) : option N :=
  let n := N_of_ascii c in
  if (48 <=? n) && (n <=? 57) then Some (n - 48)
  else if (65 <=? n) && (n <=? 70) then Some (n - 55)
  else if (97 <=? n) && (n <=? 102) then Some (n - 87)
  else None.

(** The input read left to right: a percent sign must be followed by two
    hexadecimal digits and yields an octet; any other code unit stands for
    itself.  [None] is failure. *)
Inductive Token : Type :=
| Lit (c : ascii)
| Octet (b : N).

Fixpoint tokens (s : string) : option (list Token) :=
  match s with
  | EmptyString => Some []
  | String c rest =>
      if Ascii.eqb c PERCENT then
        match rest with
        | String h (String l rest') =>
            match hex_value h, hex_value l with
            | Some x, Some y =>
                option_map (cons (Octet (16 * x + y))) (tokens rest')
            | _, _ => None
            end
        | _ => None
        end
      else option_map (cons (Lit c)) (tokens rest)
  end.

(** Number of leading 1 bits of an octet (5 stands for five or more). *)
Definition leading_ones (b : N) : nat :=
  if b <? 128 then 0
  else if b <? 192 then 1
  else if b <? 224 then 2
  else if b <? 240 then 3
  else if b <? 248 then 4
  else 5.

Definition between (lo b hi : N) : bool := (lo <=? b) && (b <=? hi).
Definition continuation (b : N) : bool := between 128 b 191.

(** Well-formed UTF-8 encodings of one code point: no overlong forms, no
    surrogates, nothing above U+10FFFF. *)
Definition utf8_2 (b1 b2 : N) : bool :=
  between 194 b1 223 && continuation b2.

Definition utf8_3 (b1 b2 b3 : N) : bool :=
  ((b1 =? 224) && between 160 b2 191
   || between 225 b1 236 && continuation b2
   || (b1 =? 237) && between 128 b2 159
   || between 238 b1 239 && continuation b2)
  && continuation b3.

Definition utf8_4 (b1 b2 b3 b4 : N) : bool :=
  ((b1 =? 240) && between 144 b2 191
   || between 241 b1 243 && continuation b2
   || (b1 =? 244) && between 128 b2 143)
  && continuation b3 && continuation b4.

Definition octets (bs : list N) : string :=
  string_of_list_ascii (map ascii_of_N bs).

(** An octet below 0x80 is the character itself; a leading octet announcing
    [n] octets must be followed by [n - 1] further escapes that together form
    one well-formed code point; everything else is a failure. *)
Fixpoint assemble (ts : list Token) : option string :=
  match ts with
  | [] => Some ""
  | Lit c :: rest => option_map (String c) (assemble rest)
  | Octet b :: rest =>
      match leading_ones b with
      | 0%nat => option_map (String (ascii_of_N b)) (assemble rest)
      | 2%nat =>
          match rest with
          | Octet b2 :: rest' =>
              if utf8_2 b b2
              then option_map (append (octets [b; b2])) (assemble rest')
              else None
          | _ => None
          end
      | 3%nat =>
          match rest with
          | Octet b2 :: Octet b3 :: rest' =>
              if utf8_3 b b2 b3
              then option_map (append (octets [b; b2; b3])) (assemble rest')
              else None
          | _ => None
          end
      | 4%nat =>
          match rest with
          | Octet b2 :: Octet b3 :: Octet b4 :: rest' =>
              if utf8_4 b b2 b3 b4
              then option_map (append (octets [b; b2; b3; b4]))
                     (assemble rest')
              else None
          | _ => None
          end
      | _ => None
      end
  end.

(** [decodeURIComponent(s)]: every failure is a [URIError]. *)
Definition decodeURIComponent (s : string) : Completion string :=
  match tokens s with
  | Some ts =>
      match assemble ts with
      | Some decoded => Normal decoded
      | None => Throw URIError
      end
  | None => Throw URIError
  end.

End URI.
Import URI.

(** ** [path.join] and [path.extname] *)

Module Path.

(** [s.split('/')]: never empty. *)
Fixpoint split (s : string) : list string :=
  match s with
  | EmptyString => [""]
  | String c rest =>
      if Ascii.eqb c SLASH then "" :: split rest
      else match split rest with
           | seg :: segs => String c seg :: segs
           | [] => [String c ""]
           end
  end.

Definition isAbsolute (path : string) : bool :=
  match path with
  | String c _ => Ascii.eqb c SLASH
  | EmptyString => false
  end.

Fixpoint trailingSeparator (path : string) : bool :=
  match path with
  | EmptyString => false
  | String c EmptyString => Ascii.eqb c SLASH
  | String _ rest => trailingSeparator rest
  end.

(** One segment of [normalizeString]; [res] holds the segments kept so far,
    the last one first.  Empty segments and [.] are dropped, [..] removes
    the last kept segment unless there is none or it is [..] itself, in which
    case [..] is kept only when [allowAboveRoot]. *)
Definition push_segment (allowAboveRoot : bool) (res : list string)
  (seg : string) : list string :=
  if (seg === "") || (seg === ".") then res
  else if seg === ".." then
    match res with
    | [] => if allowAboveRoot then [".."] else []
    | last :: before =>
        if last === ".."
        then (if allowAboveRoot then ".." :: res else res)
        else before
    end
  else seg :: res.

Definition normalizeString (path : string) (allowAboveRoot : bool) : string :=
  join_with "/" (rev (fold_left (push_segment allowAboveRoot) (split path) [])).

Definition normalize (path : string) : string :=
  if path === "" then "."
  else
    let absolute := isAbsolute path in
    let trailing := trailingSeparator path in
    let p := normalizeString path (negb absolute) in
    if p === "" then
      if absolute then "/" else if trailing then "./" else "."
    else
      let p := if trailing then p ++ "/" else p in
      if absolute then "/" ++ p else p.

(** [path.join(...args)]: the non-empty arguments are glued with slashes and
    the result is normalized. *)
Definition join (args : list string) : string :=
  match filter truthy args with
  | [] => "."
  | joined => normalize (join_with "/" joined)
  end.

(** A string without slash, and a segment that [normalizeString] keeps as
    it is. *)
Fixpoint no_slash (s : string) : bool :=
  match s with
  | EmptyString => true
  | String c rest => negb (Ascii.eqb c SLASH) && no_slash rest
  end.

Definition ordinary (seg : string) : bool :=
  negb (seg === "") && negb (seg === ".") && negb (seg === "..").

(** The last component of a path, read from its end: trailing slashes are
    skipped, then code units are taken up to the next slash. *)
Fixpoint skip_slashes (l : list ascii) : list ascii :=
  match l with
  | c :: rest => if Ascii.eqb c SLASH then skip_slashes rest else l
  | [] => []
  end.

Fixpoint until_slash (l : list ascii) : list ascii :=
  match l with
  | c :: rest => if Ascii.eqb c SLASH then [] else c :: until_slash rest
  | [] => []
  end.

(** Splits a reversed component at its first dot, that is at the last dot of
    the component: what follows the dot and what precedes it, both
    reversed. *)
Fixpoint at_last_dot (l : list ascii) : option (list ascii * list ascii) :=
  match l with
  | [] => None
  | c :: rest =>
      if Ascii.eqb c DOT then Some ([], rest)
      else match at_last_dot rest with
           | Some (after, before) => Some (c :: after, before)
           | None => None
           end
  end.

(** [path.extname(path)]: from the last dot of the last component to its
    end; empty when the component has no dot, starts with its only dot, or
    is [..]. *)
Definition extname (path : string) : string :=
  let part := until_slash (skip_slashes (rev (list_ascii_of_string path))) in
  match at_last_dot part with
  | None => ""
  | Some (after, before) =>
      match before with
      | [] => ""
      | c :: before' =>
          let dotdot :=
            match after, before' with
            | [], [] => Ascii.eqb c DOT
            | _, _ => false
            end in
          if dotdot then "" else String DOT (string_of_list_ascii (rev after))
      end
  end.

End Path.

(** ** [String.prototype.toLowerCase] *)

Definition lower (c : ascii) : ascii :=
  let n := nat_of_ascii c in
  if Nat.leb 65 n && Nat.leb n 90 then ascii_of_nat (n + 32) else c.

Definition is_kelvin_sign (c1 c2 c3 : ascii) : bool :=
  Nat.eqb (nat_of_ascii c1) 226 && Nat.eqb (nat_of_ascii c2) 132
  && Nat.eqb (nat_of_ascii c3) 170.

(** The letters A-Z are lowered and U+212A (KELVIN SIGN, bytes E2 84 AA)
    becomes [k]; these are the only code points whose lower case is an ASCII
    letter.  Every other code point is kept: its lower case is not ASCII
    either, so the result agrees with JavaScript's whenever one of them is
    ASCII, and never equals an ASCII string otherwise. *)
Fixpoint toLowerCase (s : string) : string :=
  match s with
  | EmptyString => ""
  | String c1 t1 =>
      match t1 with
      | String c2 (String c3 t3) =>
          if is_kelvin_sign c1 c2 c3 then String "k" (toLowerCase t3)
          else String (lower c1) (toLowerCase t1)
      | _ => String (lower c1) (toLowerCase t1)
      end
  end.

(** ** Numbers *)

(** The values of type Number that the program meets: [NaN], the integers
    (the doubles that [parseInt] yields are integers; [-0] is [Finite 0])
    and the two infinities. *)
Inductive JsNumber : Type :=
| NaN
| Finite (z : Z)
| Infinity (negative : bool).

Coercion Finite : Z >-> JsNumber.

(** ** [Number.parseInt(string, 10)] *)

Module Number.

Definition byte_is (c : ascii) (n : nat) : bool := Nat.eqb (nat_of_ascii c) n.

Definition is_digit (c : ascii) : bool :=
  Nat.leb 48 (nat_of_ascii c) && Nat.leb (nat_of_ascii c) 57.

Definition digit_value (c : ascii) : Z := Z.of_nat (nat_of_ascii c) - 48.

(** White space and line terminators: TAB, LF, VT, FF, CR, SP. *)
Definition white1 (c : ascii) : bool :=
  let n := nat_of_ascii c in
  (Nat.leb 9 n && Nat.leb n 13) || Nat.eqb n 32.

(** U+00A0. *)
Definition white2 (c1 c2 : ascii) : bool :=
  byte_is c1 194 && byte_is c2 160.

(** U+1680, U+2000-U+200A, U+2028, U+2029, U+202F, U+205F, U+3000,
    U+FEFF. *)
Definition white3 (c1 c2 c3 : ascii) : bool :=
  let n3 := nat_of_ascii c3 in
  (byte_is c1 225 && byte_is c2 154 && byte_is c3 128)
  || (byte_is c1 226 && byte_is c2 128
      && ((Nat.leb 128 n3 && Nat.leb n3 138)
          || Nat.eqb n3 168 || Nat.eqb n3 169 || Nat.eqb n3 175))
  || (byte_is c1 226 && byte_is c2 129 && byte_is c3 159)
  || (byte_is c1 227 && byte_is c2 128 && byte_is c3 128)
  || (byte_is c1 239 && byte_is c2 187 && byte_is c3 191).

(** [TrimString(inputString, start)]. *)
Fixpoint trimStart (s : string) : string :=
  match s with
  | EmptyString => s
  | String c1 t1 =>
      if white1 c1 then trimStart t1
      else
        match t1 with
        | EmptyString => s
        | String c2 t2 =>
            if white2 c1 c2 then trimStart t2
            else
              match t2 with
              | EmptyString => s
              | String c3 t3 =>
                  if white3 c1 c2 c3 then trimStart t3 else s
              end
        end
  end.

(** The longest prefix of decimal digits. *)
Fixpoint leading_digits (s : string) : list ascii :=
  match s with
  | EmptyString => []
  | String c rest => if is_digit c then c :: leading_digits rest else []
  end.

Definition digits_value (ds : list ascii) : Z :=
  fold_left (fun acc d => 10 * acc + digit_value d)%Z ds 0%Z.

(** The double nearest to an integer [n >= 0], ties to even: an integer
    below 2^53 is a double; otherwise the 53 leading bits are kept and
    rounded by the bits dropped; from 2^1024 on the result is [Infinity]. *)
Definition round (n : Z) : JsNumber :=
  if (n <? 2 ^ 53)%Z then Finite n
  else
    let shift := (Z.log2 n - 52)%Z in
    let q := Z.shiftr n shift in
    let r := (n - Z.shiftl q shift)%Z in
    let half := (2 ^ (shift - 1))%Z in
    let q' :=
      if (half <? r)%Z || ((r =? half)%Z && Z.odd q) then (q + 1)%Z else q in
    let v := Z.shiftl q' shift in
    if (v <? 2 ^ 1024)%Z then Finite v else Infinity false.

Definition negate (x : JsNumber) : JsNumber :=
  match x with
  | NaN => NaN
  | Finite z => Finite (- z)
  | Infinity negative => Infinity (negb negative)
  end.

(** The Number value of a mathematical integer. *)
Definition of_Z (n : Z) : JsNumber :=
  if (n <? 0)%Z then negate (round (- n)) else round n.

(** [Number.parseInt(input, 10)].  An absent input is converted to the
    string [undefined].  The digits give a mathematical integer, and the
    result is its Number value. *)
Definition parseInt (input : option string) : JsNumber :=
  let inputString := match input with Some s => s | None => "undefined" end in
  let trimmed := trimStart inputString in
  let '(sign, rest) :=
    match trimmed with
    | String c rest =>
        if byte_is c 45 then ((-1)%Z, rest)
        else if byte_is c 43 then (1%Z, rest)
        else (1%Z, trimmed)
    | EmptyString => (1%Z, trimmed)
    end in
  match leading_digits rest with
  | [] => NaN
  | ds => of_Z (sign * digits_value ds)
  end.

End Number.

(** [const port = Number.parseInt(process.env.PORT, 10) || 3000] (line 16):
    [NaN] and zero are falsy. *)
Definition port (env_PORT : option string) : JsNumber :=
  match Number.parseInt env_PORT with
  | NaN => Finite 3000
  | Finite n => if (n =? 0)%Z then Finite 3000 else Finite n
  | Infinity negative => Infinity negative
  end.

(** [server.listen(port)]: a port that is not an integer from 0 to 65535 is
    rejected with ERR_SOCKET_BAD_PORT.  Failures of the operating system to
    bind the port are not modelled. *)
Inductive Listener : Type :=
| Listening (p : Z)
| BadPort.

Definition listen (p : JsNumber) : Listener :=
  match p with
  | Finite z => if ((0 <=? z) && (z <=? 65535))%Z then Listening z else BadPort
  | _ => BadPort
  end.

(** The process as started: lines 16 and 132. *)
Definition start (env_PORT : option string) : Listener :=
  listen (port env_PORT).

(** ** The host: file system and module location *)

(** Why [fs.readFile] failed. *)
Inductive FsError : Type :=
| ENOENT
| EACCES
| EISDIR
| Errno (code : string).

Record Host : Type := {
  (** directory of the file [server.js] *)
  __dirname : string;
  (** [process.cwd()], the directory the process was started in *)
  cwd : string;
  (** what a read of a path that completes hands to the callback; a read
      that never completes is outside the model *)
  readFile : string -> FsError + list byte
}.

(** ** The module scope and the evaluation monad *)

(** The two objects created at module level; JavaScript objects are
    mutable, so handlers get them from a store and hand the store back. *)
Record Globals : Type := {
  g_data : JsValue;
  g_mimeTypes : list (string * string)
}.

Definition module_scope : Globals :=
  {| g_data := data; g_mimeTypes := mimeTypes |}.

(** What running a piece of the program yields: how it completed, the
    store it leaves, and the paths it asked the file system to read, in
    order. *)
Record Run (A : Type) : Type := {
  completion : Completion A;
  store : Globals;
  reads : list string
}.
Arguments completion {A} r.
Arguments store {A} r.
Arguments reads {A} r.

Definition Eval (A : Type) : Type := Globals -> Run A.

Definition ret {A : Type} (a : A) : Eval A :=
  fun g => {| completion := Normal a; store := g; reads := [] |}.

Definition bind {A B : Type} (m : Eval A) (k : A -> Eval B) : Eval B :=
  fun g =>
    let r := m g in
    match completion r with
    | Normal a =>
        let r' := k a (store r) in
        {| completion := completion r';
           store := store r';
           reads := (reads r ++ reads r')%list |}
    | Throw e =>
        {| completion := Throw e; store := store r; reads := reads r |}
    end.

Definition lift {A : Type} (c : Completion A) : Eval A :=
  fun g => {| completion := c; store := g; reads := [] |}.

Definition read_data : Eval JsValue :=
  fun g => {| completion := Normal (g_data g); store := g; reads := [] |}.

Definition read_mimeTypes : Eval (list (string * string)) :=
  fun g =>
    {| completion := Normal (g_mimeTypes g); store := g; reads := [] |}.

Notation "x <- m ;; k" := (bind m (fun x => k))
  (at level 61, m at next level, right associativity).

(** ** Requests and responses *)

Record IncomingMessage : Type := {
  method : string;
  url : option string
}.

(** What [res.end] is given: a string, sent in UTF-8, or a [Buffer]. *)
Inductive Chunk : Type :=
| Text (s : string)
| Buffer (content : list byte).

Definition chunk_bytes (c : Chunk) : list byte :=
  match c with
  | Text s => list_byte_of_string s
  | Buffer content => content
  end.

(** What the listener writes: the status and the headers it gives to
    [res.writeHead] and the bytes it gives to [res.end].  What the HTTP stack
    adds on its own (framing headers, dropping the body of the answer to a
    HEAD request) is not part of it. *)
Record ServerResponse : Type := {
  statusCode : Z;
  headers : list (string * string);
  body : list byte;
  writableEnded : bool
}.

(** The response object a handler receives. *)
Definition fresh : ServerResponse :=
  {| statusCode := 200; headers := []; body := []; writableEnded := false |}.

Definition writeHead (code : Z) (hs : list (string * string))
  (res : ServerResponse) : ServerResponse :=
  {| statusCode := code;
     headers := (headers res ++ hs)%list;
     body := body res;
     writableEnded := writableEnded res |}.

Definition end_ (chunk : Chunk) (res : ServerResponse) : ServerResponse :=
  {| statusCode := statusCode res;
     headers := headers res;
     body := (body res ++ chunk_bytes chunk)%list;
     writableEnded := true |}.

(** ** server.js, lines 92-130 *)

Fixpoint has_null_byte (s : string) : bool :=
  match s with
  | EmptyString => false
  | String c rest => Nat.eqb (nat_of_ascii c) 0 || has_null_byte rest
  end.

(** [fs.readFile(path, callback)]: the call is recorded; a path with a null
    byte is rejected at once with an exception and the callback never runs;
    otherwise the callback runs with what the host's file system yields for
    the path.  The callback runs later than the call, but no listener
    changes the store (lemma [server_store]), so running it at once yields
    the same. *)
Definition fs_readFile {A : Type} (h : Host) (path : string)
  (callback : FsError + list byte -> Eval A) : Eval A :=
  fun g =>
    if has_null_byte path then
      {| completion := Throw TypeError; store := g; reads := [path] |}
    else
      let r := callback (readFile h path) g in
      {| completion := completion r;
         store := store r;
         reads := path :: reads r |}.

(** The names of the properties an object literal inherits from
    [Object.prototype]. *)
Definition Object_prototype_keys : list string :=
  [ "constructor"; "__defineGetter__"; "__defineSetter__"; "hasOwnProperty";
    "__lookupGetter__"; "__lookupSetter__"; "isPrototypeOf";
    "propertyIsEnumerable"; "toString"; "valueOf"; "__proto__";
    "toLocaleString" ].

(** Line 99: [mimeTypes[ext] || 'application/octet-stream'].  The read is
    an own-property read; lemma [extname_not_inherited] below shows that no
    extension names a property inherited from [Object.prototype]. *)
Definition mimeType_for (table : list (string * string)) (ext : string)
  : string :=
  or_else (assoc ext table) "application/octet-stream".

(** [serveStatic] (lines 92-102).  The callback receives either the error
    or the content together with the MIME type. *)
Definition serveStatic {A : Type} (h : Host) (filePath : string)
  (callback : FsError + (list byte * string) -> Eval A) : Eval A :=
  fs_readFile h filePath (fun r =>
    match r with
    | inl err => callback (inl err)
    | inr content =>
        let ext := toLowerCase (Path.extname filePath) in
        table <- read_mimeTypes ;;
        let mimeType := mimeType_for table ext in
        callback (inr (content, mimeType))
    end).

(** The test of line 107. *)
Inductive Route : Type :=
| JsonResponder
| StaticFiles.

Definition route (req : IncomingMessage) : Route :=
  match url req with
  | Some u => if u === "/api/data" then JsonResponder else StaticFiles
  | None => StaticFiles
  end.

(** Lines 115-118. *)
Definition urlPath (req : IncomingMessage) : string :=
  let urlPath := or_else (url req) "/index.html" in
  if (urlPath === "/") || (urlPath === "") then "/index.html" else urlPath.

Definition jsonHeaders : list (string * string) :=
  [("Content-Type", "application/json; charset=UTF-8")].

Definition notFound (res : ServerResponse) : ServerResponse :=
  end_ (Text "404 Not Found")
    (writeHead 404 [("Content-Type", "text/plain; charset=UTF-8")] res).

Definition found (content : list byte) (mimeType : string)
  (res : ServerResponse) : ServerResponse :=
  end_ (Buffer content) (writeHead 200 [("Content-Type", mimeType)] res).

(** The request listener given to [http.createServer] (lines 105-130). *)
Definition server (h : Host) (req : IncomingMessage) (res : ServerResponse)
  : Eval ServerResponse :=
  match route req with
  | JsonResponder =>
      d <- read_data ;;
      let json := JSON.stringify d in
      ret (end_ (Text json) (writeHead 200 jsonHeaders res))
  | StaticFiles =>
      let urlPath := urlPath req in
      decoded <- lift (decodeURIComponent urlPath) ;;
      let safePath := Path.join [__dirname h; decoded] in
      serveStatic h safePath (fun r =>
        match r with
        | inl err => ret (notFound res)
        | inr (content, mimeType) => ret (found content mimeType res)
        end)
  end.

(** One request on the module scope as created. *)
Definition handle (h : Host) (req : IncomingMessage) : Run ServerResponse :=
  server h req fresh module_scope.

Definition respond (h : Host) (req : IncomingMessage)
  : Completion ServerResponse :=
  completion (handle h req).

(** A run of the process: requests are handled one after the other on the
    same module scope; an exception that escapes the listener is uncaught
    and ends the process, so later requests get no outcome. *)
Fixpoint serve (h : Host) (g : Globals) (reqs : list IncomingMessage)
  : list (Completion ServerResponse) * Globals :=
  match reqs with
  | [] => ([], g)
  | req :: rest =>
      let r := server h req fresh g in
      match completion r with
      | Normal res =>
          let '(outs, g') := serve h (store r) rest in
          (Normal res :: outs, g')
      | Throw e => ([Throw e], store r)
      end
  end.

(** ** A sample host *)

(** A file system given by the list of its files; reading anything else
    fails with ENOENT. *)
Definition disk (files : list (string * string)) (path : string)
  : FsError + list byte :=
  match assoc path files with
  | Some text => inr (list_byte_of_string text)
  | None => inl ENOENT
  end.

(** The server installed in [/srv/app] and started from [/home/wise]; the
    directories themselves cannot be read as files. *)
Definition sample_host : Host :=
  {| __dirname := "/srv/app";
     cwd := "/home/wise";
     readFile := fun path =>
       if (path === "/srv/app") || (path === "/srv") || (path === "/")
       then inl EISDIR
       else disk [ ("/srv/app/index.html", "<h1>Wise</h1>")
                 ; ("/srv/app/style.CSS", "body{}")
                 ; ("/srv/app/notes.xyz", "n")
                 ; ("/srv/secret.txt", "s3cret") ] path |}.

Definition GET (u : string) : IncomingMessage :=
  {| method := "GET"; url := Some u |}.

(** ** The wording of the specification *)

Module Spec.

(** White space as [parseInt] skips it, code point by code point. *)
Inductive WhiteSpace : string -> Prop :=
| WhiteSpace_nil : WhiteSpace ""
| WhiteSpace_1 (c : ascii) (s : string) :
    Number.white1 c = true -> WhiteSpace s -> WhiteSpace (String c s)
| WhiteSpace_2 (c1 c2 : ascii) (s : string) :
    Number.white2 c1 c2 = true -> WhiteSpace s ->
    WhiteSpace (String c1 (String c2 s))
| WhiteSpace_3 (c1 c2 c3 : ascii) (s : string) :
    Number.white3 c1 c2 c3 = true -> WhiteSpace s ->
    WhiteSpace (String c1 (String c2 (String c3 s))).

Fixpoint all_digits (s : string) : bool :=
  match s with
  | EmptyString => true
  | String c rest => Number.is_digit c && all_digits rest
  end.

(** A numeric value of the PORT variable: a decimal numeral, that is one or
    more decimal digits and nothing else. *)
Definition numeric (s : string) : bool := negb (s === "") && all_digits s.

(** The string begins with a decimal integer: optional white space, an
    optional sign, then a digit. *)
Definition leading_integer (s : string) : Prop :=
  exists ws sign c rest,
    WhiteSpace ws
    /\ (sign = "" \/ sign = "+" \/ sign = "-")
    /\ Number.is_digit c = true
    /\ s = ws ++ sign ++ String c rest.

(** Port selection as the specification words it. *)
Definition port_selection : Prop :=
  start (Some "8080") = Listening 8080
  /\ start None = Listening 3000
  /\ (forall s, numeric s = false -> start (Some s) = Listening 3000).

(** A path lies inside a directory when it is the directory or continues
    it after a slash. *)
Definition inside (root path : string) : bool :=
  (path === root) || String.prefix (root ++ "/") path.

(** Path resolution as the specification words it: the base directory is
    the working directory of the process. *)
Definition resolved_from_cwd : Prop :=
  forall (h : Host) (req : IncomingMessage) (decoded : string),
    route req = StaticFiles ->
    decodeURIComponent (urlPath req) = Normal decoded ->
    reads (handle h req) = [Path.join [cwd h; decoded]].

(** The file read of a request fails: a path is handed to the file reader
    and no content comes back, because the reader refuses the path or
    reports an error. *)
Definition read_fails (h : Host) (req : IncomingMessage) : Prop :=
  exists p,
    reads (handle h req) = [p]
    /\ (has_null_byte p = true \/ exists err, readFile h p = inl err).

(** Failed reads as the specification words them: every request that is
    not for the API and whose file read fails gets the fixed 404 answer. *)
Definition failed_read_is_404 (h : Host) : Prop :=
  forall req : IncomingMessage,
    route req = StaticFiles ->
    read_fails h req ->
    respond h req = Normal (notFound fresh).

Fixpoint has_question_mark (s : string) : bool :=
  match s with
  | EmptyString => false
  | String c rest => Ascii.eqb c "?" || has_question_mark rest
  end.

(** Query strings as the specification words them: a URL with a query is
    never the API path, and when it names an existing file with a query
    appended (and decodes), the answer is the 404 response unless the host
    has a readable file whose name holds a question mark. *)
Definition query_strings : Prop :=
  (forall m p q,
     route {| method := m; url := Some (p ++ "?" ++ q) |} = StaticFiles)
  /\ (forall (h : Host) m p q decoded content,
        decodeURIComponent (p ++ "?" ++ q) = Normal decoded ->
        readFile h (Path.join [__dirname h; p]) = inr content ->
        respond h {| method := m; url := Some (p ++ "?" ++ q) |} =
          Normal (notFound fresh)
        \/ exists file bytes,
             has_question_mark file = true
             /\ readFile h file = inr bytes).

End Spec.

(** ** Further notions *)

Fixpoint no_percent (s : string) : bool :=
  match s with
  | EmptyString => true
  | String c rest => negb (Ascii.eqb c PERCENT) && no_percent rest
  end.

(** The URL of a request holds no percent sign. *)
Definition plain_url (req : IncomingMessage) : bool :=
  match url req with
  | Some u => no_percent u
  | None => true
  end.

(** No segment of a path is [..]. *)
Definition not_dotdot (seg : string) : bool := negb (seg === "..").

Definition no_dotdot (path : string) : bool :=
  forallb not_dotdot (Path.split path).

(** A normalized absolute directory other than the root: a slash, then
    ordinary segments separated by single slashes. *)
Definition directory (segs : list string) : string :=
  "/" ++ join_with "/" segs.

Definition segments_ok (segs : list string) : bool :=
  forallb Path.no_slash segs && forallb Path.ordinary segs.

Definition null_free (s : string) : bool := negb (has_null_byte s).

Definition not_slash (c : ascii) : bool := negb (Ascii.eqb c SLASH).
Definition not_dot (c : ascii) : bool := negb (Ascii.eqb c DOT).

Fixpoint no_dot (s : string) : bool :=
  match s with
  | EmptyString => true
  | String c rest => negb (Ascii.eqb c DOT) && no_dot rest
  end.

(** * Properties *)

(** ** Strings *)

Lemma str_eq_true (a b : string) : a === b = true <-> a = b.
Proof. unfold str_eq. apply String.eqb_eq. Qed.

Lemma str_eq_false (a b : string) : a === b = false <-> a <> b.
Proof. unfold str_eq. apply String.eqb_neq. Qed.

Lemma str_eq_refl (a : string) : a === a = true.
Proof. apply str_eq_true. reflexivity. Qed.

Lemma assoc_absent {A : Type} (k : string) (props : list (string * A)) :
  ~ In k (map fst props) -> assoc k props = None.
Proof.
  induction props as [|[k' x] rest IH]; simpl; intros HNot.
  - reflexivity.
  - destruct (k' === k) eqn:E.
    + apply str_eq_true in E. exfalso. apply HNot. left. exact E.
    + apply IH. intros HIn. apply HNot. right. exact HIn.
Qed.

Lemma decode_throws (s : string) (e : JsError) :
  decodeURIComponent s = Throw e -> e = URIError.
Proof.
  unfold decodeURIComponent. intros H.
  destruct (tokens s) as [ts|]; [destruct (assemble ts)|];
    congruence.
Qed.

(** ** The listener, branch by branch *)

Section Listener.

Variable h : Host.

Lemma route_json (req : IncomingMessage) :
  route req = JsonResponder <-> url req = Some "/api/data".
Proof.
  unfold route. destruct (url req) as [u|].
  - destruct (u === "/api/data") eqn:E.
    + apply str_eq_true in E. subst u. split; reflexivity.
    + apply str_eq_false in E. split; [discriminate|].
      intros H. inversion H. contradiction.
  - split; discriminate.
Qed.

Lemma server_json (req : IncomingMessage) (res : ServerResponse) (g : Globals) :
  route req = JsonResponder ->
  server h req res g =
    {| completion :=
         Normal (end_ (Text (JSON.stringify (g_data g)))
                   (writeHead 200 jsonHeaders res));
       store := g;
       reads := [] |}.
Proof. intros R. unfold server. rewrite R. reflexivity. Qed.

Lemma server_throw (req : IncomingMessage) (res : ServerResponse) (g : Globals)
  (e : JsError) :
  route req = StaticFiles ->
  decodeURIComponent (urlPath req) = Throw e ->
  server h req res g = {| completion := Throw e; store := g; reads := [] |}.
Proof.
  intros R D. unfold server. rewrite R. unfold bind, lift. simpl.
  rewrite D. reflexivity.
Qed.

Lemma server_static (req : IncomingMessage) (res : ServerResponse) (g : Globals)
  (decoded : string) :
  route req = StaticFiles ->
  decodeURIComponent (urlPath req) = Normal decoded ->
  has_null_byte (Path.join [__dirname h; decoded]) = false ->
  server h req res g =
    let safePath := Path.join [__dirname h; decoded] in
    {| completion :=
         Normal
           match readFile h safePath with
           | inl _ => notFound res
           | inr content =>
               found content
                 (mimeType_for (g_mimeTypes g)
                    (toLowerCase (Path.extname safePath)))
                 res
           end;
       store := g;
       reads := [safePath] |}.
Proof.
  intros R D Z. unfold server. rewrite R. unfold bind, lift. simpl.
  rewrite D. simpl. unfold serveStatic, fs_readFile. rewrite Z.
  destruct (readFile h (Path.join [__dirname h; decoded])); reflexivity.
Qed.

Lemma server_rejected (req : IncomingMessage) (res : ServerResponse)
  (g : Globals) (decoded : string) :
  route req = StaticFiles ->
  decodeURIComponent (urlPath req) = Normal decoded ->
  has_null_byte (Path.join [__dirname h; decoded]) = true ->
  server h req res g =
    {| completion := Throw TypeError;
       store := g;
       reads := [Path.join [__dirname h; decoded]] |}.
Proof.
  intros R D Z. unfold server. rewrite R. unfold bind, lift. simpl.
  rewrite D. simpl. unfold serveStatic, fs_readFile. rewrite Z. reflexivity.
Qed.

(** The one path handed to [fs.readFile]. *)
Lemma server_reads (req : IncomingMessage) (res : ServerResponse)
  (g : Globals) (decoded : string) :
  route req = StaticFiles ->
  decodeURIComponent (urlPath req) = Normal decoded ->
  reads (server h req res g) = [Path.join [__dirname h; decoded]].
Proof.
  intros R D.
  destruct (has_null_byte (Path.join [__dirname h; decoded])) eqn:Z.
  - rewrite (server_rejected _ _ _ decoded R D Z). reflexivity.
  - rewrite (server_static _ _ _ decoded R D Z). reflexivity.
Qed.

Lemma urlPath_other (m u : string) :
  u <> "" -> u <> "/" -> urlPath {| method := m; url := Some u |} = u.
Proof.
  intros H0 H1. apply str_eq_false in H0, H1.
  unfold urlPath, or_else, truthy. cbn [url]. rewrite H0. cbn [negb].
  rewrite H1, H0. reflexivity.
Qed.

Lemma route_other (m u : string) :
  u <> "/api/data" -> route {| method := m; url := Some u |} = StaticFiles.
Proof.
  intros H. destruct (route _) eqn:R; [|reflexivity].
  apply route_json in R. cbn [url] in R. inversion R. contradiction.
Qed.

(** No request changes the module scope. *)
Lemma server_store (req : IncomingMessage) (res : ServerResponse) (g : Globals) :
  store (server h req res g) = g.
Proof.
  destruct (route req) eqn:R.
  - rewrite server_json by assumption. reflexivity.
  - destruct (decodeURIComponent (urlPath req)) as [d|e] eqn:D.
    + destruct (has_null_byte (Path.join [__dirname h; d])) eqn:Z.
      * rewrite (server_rejected _ _ _ d) by assumption. reflexivity.
      * rewrite (server_static _ _ _ d) by assumption. reflexivity.
    + rewrite (server_throw _ _ _ e) by assumption. reflexivity.
Qed.

End Listener.

Lemma serve_store (h : Host) (reqs : list IncomingMessage) (g : Globals) :
  snd (serve h g reqs) = g.
Proof.
  revert g. induction reqs as [|req rest IH]; intros g; simpl.
  - reflexivity.
  - pose proof (server_store h req fresh g) as S.
    destruct (completion (server h req fresh g)).
    + rewrite S. specialize (IH g).
      destruct (serve h g rest) as [outs g']. simpl in *. exact IH.
    + simpl. exact S.
Qed.

(** ** The API endpoint *)

(** C1. A request whose URL is exactly [/api/data] is answered, without
    touching the file system, with status 200, the single header
    Content-Type [application/json; charset=UTF-8] and, as body, the UTF-8
    bytes of the JSON text written out below (with apostrophes for its
    double quotes), which is the serialization of [data]; [data] has exactly
    the eight fields problem, solution, coreFeatures, targetUsers,
    valueProposition, successMetrics, techStack and monetization, each with
    the value given below; and a request is routed to the JSON responder
    only if its URL is that string. *)
Theorem C1_api_data :
  forall (h : Host) (m : string),
    handle h {| method := m; url := Some "/api/data" |} =
      {| completion :=
           Normal
             {| statusCode := 200;
                headers :=
                  [("Content-Type", "application/json; charset=UTF-8")];
                body :=
                  list_byte_of_string
                    (double_quoted
                       (
           "{'problem':'Moving money across borders with traditional banks is slow, costly and lacks transparency. Exchange rates often include hidden mark‑ups and customers rarely know the full cost upfront.'," ++
           "'solution':['Open a single account to hold and convert more than 40 currencies.'," ++
           "'Send payments to over 70 countries using the mid‑market rate and low fees.'," ++
           "'Spend or withdraw cash in 160+ countries with a Wise card; freeze and unfreeze the card in‑app.'," ++
           "'Transfers are protected with two‑factor authentication, encryption and biometrics.']," ++
           "'coreFeatures':['Multi‑currency wallet with instant conversion between 40+ currencies.'," ++
           "'Low, transparent transfer fees starting from around 0.43%.'," ++
           "'Fast transfers — over 65% arrive in under 20 seconds.'," ++
           "'Local account details for 9 currencies so you can get paid like a local.'," ++
           "'Wise card for global spending and cash withdrawals with automatic currency conversion.'," ++
           "'In‑app dashboard to track balances, transfers and transaction history.']," ++
           "'targetUsers':['Freelancers and remote workers paid in multiple currencies.'," ++
           "'Expats and travellers managing money abroad.'," ++
           "'Small businesses paying overseas suppliers and contractors.'," ++
           "'Individuals sending money to family in other countries.']," ++
           "'valueProposition':['Real mid‑market exchange rates with no hidden mark‑ups.'," ++
           "'Faster transfers than traditional banks — many arrive instantly.'," ++
           "'Transparent pricing displayed before you send.'," ++
           "'Local account details make receiving payments simple and often free.'," ++
           "'Regulated money services business, using two‑factor authentication and encryption.']," ++
           "'successMetrics':['Growth in transfer volume and repeat transactions.'," ++
           "'Retention of active users and frequency of app usage.'," ++
           "'App Store rating (currently 4.7/5 with 91k+ reviews).'," ++
           "'Expansion of the customer base (16 million+ users worldwide).']," ++
           "'techStack':['Native apps for iOS and Android devices.'," ++
           "'Back‑end integrations with global banking networks and payment rails.'," ++
           "'Security features including two‑factor authentication, encryption and biometric logins.'," ++
           "'Wise operates as a Money Service Business rather than a bank, safeguarding funds through partner banks.']," ++
           "'monetization':['Small flat fees and a low margin on currency conversion.'," ++
           "'Interest on USD balances for eligible US customers.']}"));
                writableEnded := true |};
         store := module_scope;
         reads := [] |}
    /\ JSON.keys data =
         ["problem"; "solution"; "coreFeatures"; "targetUsers";
          "valueProposition"; "successMetrics"; "techStack"; "monetization"]
    /\ NoDup (JSON.keys data)
    /\ JSON.get data "problem" =
         Some (JString "Moving money across borders with traditional banks is slow, costly and lacks transparency. Exchange rates often include hidden mark‑ups and customers rarely know the full cost upfront.")
    /\ JSON.get data "solution" =
         Some (JArray
             [ JString "Open a single account to hold and convert more than 40 currencies."
             ; JString "Send payments to over 70 countries using the mid‑market rate and low fees."
             ; JString "Spend or withdraw cash in 160+ countries with a Wise card; freeze and unfreeze the card in‑app."
             ; JString "Transfers are protected with two‑factor authentication, encryption and biometrics." ])
    /\ JSON.get data "coreFeatures" =
         Some (JArray
             [ JString "Multi‑currency wallet with instant conversion between 40+ currencies."
             ; JString "Low, transparent transfer fees starting from around 0.43%."
             ; JString "Fast transfers — over 65% arrive in under 20 seconds."
             ; JString "Local account details for 9 currencies so you can get paid like a local."
             ; JString "Wise card for global spending and cash withdrawals with automatic currency conversion."
             ; JString "In‑app dashboard to track balances, transfers and transaction history." ])
    /\ JSON.get data "targetUsers" =
         Some (JArray
             [ JString "Freelancers and remote workers paid in multiple currencies."
             ; JString "Expats and travellers managing money abroad."
             ; JString "Small businesses paying overseas suppliers and contractors."
             ; JString "Individuals sending money to family in other countries." ])
    /\ JSON.get data "valueProposition" =
         Some (JArray
             [ JString "Real mid‑market exchange rates with no hidden mark‑ups."
             ; JString "Faster transfers than traditional banks — many arrive instantly."
             ; JString "Transparent pricing displayed before you send."
             ; JString "Local account details make receiving payments simple and often free."
             ; JString "Regulated money services business, using two‑factor authentication and encryption." ])
    /\ JSON.get data "successMetrics" =
         Some (JArray
             [ JString "Growth in transfer volume and repeat transactions."
             ; JString "Retention of active users and frequency of app usage."
             ; JString "App Store rating (currently 4.7/5 with 91k+ reviews)."
             ; JString "Expansion of the customer base (16 million+ users worldwide)." ])
    /\ JSON.get data "techStack" =
         Some (JArray
             [ JString "Native apps for iOS and Android devices."
             ; JString "Back‑end integrations with global banking networks and payment rails."
             ; JString "Security features including two‑factor authentication, encryption and biometric logins."
             ; JString "Wise operates as a Money Service Business rather than a bank, safeguarding funds through partner banks." ])
    /\ JSON.get data "monetization" =
         Some (JArray
             [ JString "Small flat fees and a low margin on currency conversion."
             ; JString "Interest on USD balances for eligible US customers." ])
    /\ (forall req : IncomingMessage,
          route req = JsonResponder <-> url req = Some "/api/data").
Proof.
  intros h m. split; [|split; [|split]].
  - unfold handle. rewrite server_json by reflexivity.
    vm_compute. reflexivity.
  - reflexivity.
  - repeat constructor; simpl; intuition discriminate.
  - repeat (split; [reflexivity|]). apply route_json.
Qed.

(** ** Static files *)

(** C2. A request that is not for the API, whose URL path decodes and whose
    joined path names a file the file system can read (a name holds no null
    byte), is answered with status 200, the bytes of the file as body, and
    as Content-Type the entry of the MIME table for the lower-cased
    extension of the joined path, or [application/octet-stream] when the
    table has no such entry. *)
Theorem C2_static_file :
  forall (h : Host) (req : IncomingMessage) (decoded : string)
         (content : list byte),
    route req = StaticFiles ->
    decodeURIComponent (urlPath req) = Normal decoded ->
    has_null_byte (Path.join [__dirname h; decoded]) = false ->
    readFile h (Path.join [__dirname h; decoded]) = inr content ->
    let ext := toLowerCase (Path.extname (Path.join [__dirname h; decoded])) in
    respond h req =
      Normal {| statusCode := 200;
                headers := [("Content-Type", mimeType_for mimeTypes ext)];
                body := content;
                writableEnded := true |}
    /\ (forall e ty,
          In (e, ty)
            [ (".html", "text/html; charset=UTF-8")
            ; (".css", "text/css; charset=UTF-8")
            ; (".js", "text/javascript; charset=UTF-8")
            ; (".json", "application/json; charset=UTF-8")
            ; (".png", "image/png")
            ; (".jpg", "image/jpeg")
            ; (".jpeg", "image/jpeg")
            ; (".svg", "image/svg+xml") ] ->
          mimeType_for mimeTypes e = ty)
    /\ (forall e,
          ~ In e [".html"; ".css"; ".js"; ".json"; ".png"; ".jpg"; ".jpeg";
                  ".svg"] ->
          mimeType_for mimeTypes e = "application/octet-stream").
Proof.
  intros h req decoded content R D Z F ext. split; [|split].
  - unfold respond, handle. rewrite (server_static h req fresh _ decoded R D Z).
    simpl. rewrite F. reflexivity.
  - intros e ty HIn. simpl in HIn.
    repeat (destruct HIn as [HIn|HIn];
            [inversion HIn; subst; reflexivity|]).
    contradiction.
  - intros e HNot. unfold mimeType_for.
    rewrite assoc_absent by exact HNot. reflexivity.
Qed.

(** The 404 path (lines 122-124).  A request that is not for the API,
    whose URL path decodes and for whose joined path [fs.readFile] hands an
    error to its callback, whatever the error, is answered with status 404,
    Content-Type [text/plain; charset=UTF-8] and body [404 Not Found]; the
    answer does not depend on the error. *)
Lemma read_error_not_found :
  forall (h : Host) (req : IncomingMessage) (decoded : string) (err : FsError),
    route req = StaticFiles ->
    decodeURIComponent (urlPath req) = Normal decoded ->
    has_null_byte (Path.join [__dirname h; decoded]) = false ->
    readFile h (Path.join [__dirname h; decoded]) = inl err ->
    respond h req =
      Normal {| statusCode := 404;
                headers := [("Content-Type", "text/plain; charset=UTF-8")];
                body := list_byte_of_string "404 Not Found";
                writableEnded := true |}.
Proof.
  intros h req decoded err R D Z F.
  unfold respond, handle. rewrite (server_static h req fresh _ decoded R D Z).
  simpl. rewrite F. reflexivity.
Qed.

Lemma C2_static_file_witness :
  respond sample_host (GET "/style.CSS") =
    Normal {| statusCode := 200;
              headers := [("Content-Type", "text/css; charset=UTF-8")];
              body := list_byte_of_string "body{}";
              writableEnded := true |}.
Proof.
  exact (proj1 (C2_static_file sample_host (GET "/style.CSS") "/style.CSS"
                  (list_byte_of_string "body{}")
                  eq_refl eq_refl eq_refl eq_refl)).
Defined.

Lemma read_error_not_found_example :
  readFile sample_host "/srv/app" = inl EISDIR
  /\ respond sample_host (GET "/%2E") =
       Normal {| statusCode := 404;
                 headers := [("Content-Type", "text/plain; charset=UTF-8")];
                 body := list_byte_of_string "404 Not Found";
                 writableEnded := true |}.
Proof.
  split; [reflexivity|].
  exact (read_error_not_found sample_host (GET "/%2E") "/." EISDIR
           eq_refl eq_refl eq_refl eq_refl).
Defined.

(** C4. An absent, empty or root URL is normalized to [/index.html], so
    each of these three requests is handled exactly as a request for
    [/index.html] (same response, same file read); every other URL is left as
    it is, and, unless it is the API path, what is joined to the base
    directory and read is its percent-decoded form. *)
Theorem C4_index_document :
  forall (h : Host) (m : string),
    let req := fun u => {| method := m; url := u |} in
    urlPath (req None) = "/index.html"
    /\ urlPath (req (Some "")) = "/index.html"
    /\ urlPath (req (Some "/")) = "/index.html"
    /\ handle h (req None) = handle h (req (Some "/index.html"))
    /\ handle h (req (Some "")) = handle h (req (Some "/index.html"))
    /\ handle h (req (Some "/")) = handle h (req (Some "/index.html"))
    /\ (forall u, u <> "" -> u <> "/" -> urlPath (req (Some u)) = u)
    /\ (forall u decoded,
          u <> "" -> u <> "/" -> u <> "/api/data" ->
          decodeURIComponent u = Normal decoded ->
          reads (handle h (req (Some u))) = [Path.join [__dirname h; decoded]]).
Proof.
  intros h m req.
  repeat (split; [reflexivity|]).
  split; [intros u; apply urlPath_other|].
  intros u decoded H0 H1 H2 D. unfold handle, req.
  apply server_reads; [exact (route_other m u H2)|].
  rewrite urlPath_other by assumption. exact D.
Qed.

Lemma C4_index_document_witness :
  respond sample_host (GET "/") = respond sample_host (GET "/index.html")
  /\ reads (handle sample_host (GET "/a%20b.txt")) = ["/srv/app/a b.txt"].
Proof.
  pose proof (C4_index_document sample_host "GET") as H. cbv zeta in H.
  destruct H as (_ & _ & _ & _ & _ & Hroot & _ & Hother).
  split.
  - exact (f_equal completion Hroot).
  - apply (Hother "/a%20b.txt" "/a b.txt");
      solve [discriminate | reflexivity].
Defined.

(** ** Outcomes *)

(** Every request, once its read has completed, has ended in one of four
    ways: a response with status 200, the fixed 404 response, a [URIError]
    from [decodeURIComponent] or a [TypeError] from [fs.readFile], the last
    two escaping the listener. *)
Lemma outcomes (h : Host) (req : IncomingMessage) :
  (exists res, respond h req = Normal res /\ statusCode res = 200%Z)
  \/ respond h req = Normal (notFound fresh)
  \/ (respond h req = Throw URIError
      /\ decodeURIComponent (urlPath req) = Throw URIError)
  \/ (respond h req = Throw TypeError
      /\ exists decoded,
           decodeURIComponent (urlPath req) = Normal decoded
           /\ has_null_byte (Path.join [__dirname h; decoded]) = true).
Proof.
  unfold respond, handle. destruct (route req) eqn:R.
  - left. rewrite server_json by assumption. eexists. split; reflexivity.
  - destruct (decodeURIComponent (urlPath req)) as [d|e] eqn:D.
    + destruct (has_null_byte (Path.join [__dirname h; d])) eqn:Z.
      * right. right. right.
        rewrite (server_rejected h req fresh _ d R D Z).
        split; [reflexivity|]. exists d. split; [reflexivity|exact Z].
      * rewrite (server_static h req fresh _ d R D Z). simpl.
        destruct (readFile h (Path.join [__dirname h; d])).
        -- right. left. reflexivity.
        -- left. eexists. split; reflexivity.
    + right. right. left. rewrite (server_throw h req fresh _ e R D).
      rewrite (decode_throws _ _ D) in *. split; reflexivity.
Qed.

(** A decoded null byte is rejected by [fs.readFile] with an exception that
    nothing catches either. *)
Lemma null_byte_uncaught :
  respond sample_host (GET "/%00") = Throw TypeError.
Proof. reflexivity. Qed.

(** C5. The exception path exists: for the URL [/%], whose percent sign is
    not followed by two hexadecimal digits, [decodeURIComponent] throws a
    [URIError] that nothing catches, so the listener writes no response at
    all, neither the 200 nor the 404 one, and reads no file. *)
Theorem C5_malformed_escape_uncaught :
  forall (h : Host) (m : string),
    handle h {| method := m; url := Some "/%" |} =
      {| completion := Throw URIError; store := module_scope; reads := [] |}
    /\ ~ (forall req : IncomingMessage,
            exists res, respond h req = Normal res
                        /\ (statusCode res = 200%Z \/ res = notFound fresh)).
Proof.
  intros h m. split.
  - reflexivity.
  - intros H. destruct (H (GET "/%")) as [res [E _]]. discriminate E.
Qed.

(** ** Determinism and absence of state *)

(** C6. No request changes the module scope, so [data] and [mimeTypes] are
    never altered however many requests were served; a request is therefore
    handled at any later time exactly as on the fresh module scope, the same
    request issued twice in a row completes the same way both times, and
    every answer to [/api/data] is the same response. *)
Theorem C6_stateless :
  forall (h : Host),
    (forall req res g, store (server h req res g) = g)
    /\ (forall reqs, snd (serve h module_scope reqs) = module_scope)
    /\ (forall reqs req,
          server h req fresh (snd (serve h module_scope reqs)) = handle h req)
    /\ (forall req g,
          completion (server h req fresh (store (server h req fresh g))) =
          completion (server h req fresh g))
    /\ (forall reqs m,
          completion
            (server h {| method := m; url := Some "/api/data" |} fresh
               (snd (serve h module_scope reqs))) =
          Normal {| statusCode := 200;
                    headers :=
                      [("Content-Type", "application/json; charset=UTF-8")];
                    body := list_byte_of_string (JSON.stringify data);
                    writableEnded := true |}).
Proof.
  intros h. split; [|split; [|split; [|split]]].
  - apply server_store.
  - intros reqs. apply serve_store.
  - intros reqs req. rewrite serve_store. reflexivity.
  - intros req g. rewrite server_store. reflexivity.
  - intros reqs m. rewrite serve_store.
    rewrite server_json by reflexivity. reflexivity.
Qed.

(** ** Port selection *)

Section ParseInt.

Import Number.

Lemma byte_is_eq (c : ascii) (n : nat) :
  byte_is c n = true -> c = ascii_of_nat n.
Proof.
  unfold byte_is. intros H. apply Nat.eqb_eq in H.
  rewrite <- H. symmetry. apply ascii_nat_embedding.
Qed.

Lemma digit_bounds (c : ascii) :
  is_digit c = true -> 48 <= nat_of_ascii c <= 57.
Proof.
  unfold is_digit. intros H. apply andb_true_iff in H. destruct H as [H1 H2].
  apply Nat.leb_le in H1. apply Nat.leb_le in H2. lia.
Qed.

Lemma digit_not_byte (c : ascii) (n : nat) :
  is_digit c = true -> n < 48 \/ 57 < n -> byte_is c n = false.
Proof.
  intros D H. apply digit_bounds in D. unfold byte_is.
  apply Nat.eqb_neq. lia.
Qed.

Lemma digit_not_white (c : ascii) : is_digit c = true -> white1 c = false.
Proof.
  intros D. apply digit_bounds in D. unfold white1.
  apply orb_false_iff. split.
  - apply andb_false_iff. right. apply Nat.leb_gt. lia.
  - apply Nat.eqb_neq. lia.
Qed.

(** A string that starts with a digit has no white space to trim. *)
Lemma trimStart_digit (c : ascii) (t : string) :
  is_digit c = true -> trimStart (String c t) = String c t.
Proof.
  intros D. simpl. rewrite (digit_not_white c D).
  destruct t as [|c2 t2]; [reflexivity|].
  unfold white2. rewrite (digit_not_byte c 194 D) by lia. simpl.
  destruct t2 as [|c3 t3]; [reflexivity|].
  unfold white3.
  rewrite (digit_not_byte c 225 D), (digit_not_byte c 226 D),
    (digit_not_byte c 227 D), (digit_not_byte c 239 D) by lia.
  reflexivity.
Qed.

(** What [trimStart] removes is white space. *)
Lemma trimStart_split (s : string) :
  exists ws, Spec.WhiteSpace ws /\ s = ws ++ trimStart s.
Proof.
  remember (String.length s) as n eqn:L.
  revert s L. induction n as [n IH] using lt_wf_ind. intros s L.
  destruct s as [|c1 t1].
  { exists "". split; [constructor|reflexivity]. }
  simpl. destruct (white1 c1) eqn:W1.
  { destruct (IH (String.length t1)) with (s := t1) as [ws [Hws E]];
      [simpl in L; lia|reflexivity|].
    exists (String c1 ws). split; [constructor; assumption|].
    simpl. f_equal. exact E. }
  destruct t1 as [|c2 t2].
  { exists "". split; [constructor|reflexivity]. }
  destruct (white2 c1 c2) eqn:W2.
  { destruct (IH (String.length t2)) with (s := t2) as [ws [Hws E]];
      [simpl in L; lia|reflexivity|].
    exists (String c1 (String c2 ws)). split; [constructor; assumption|].
    simpl. do 2 f_equal. exact E. }
  destruct t2 as [|c3 t3].
  { exists "". split; [constructor|reflexivity]. }
  destruct (white3 c1 c2 c3) eqn:W3.
  { destruct (IH (String.length t3)) with (s := t3) as [ws [Hws E]];
      [simpl in L; lia|reflexivity|].
    exists (String c1 (String c2 (String c3 ws))).
    split; [constructor; assumption|].
    simpl. do 3 f_equal. exact E. }
  exists "". split; [constructor|reflexivity].
Qed.

Lemma leading_digits_app (d tail : string) :
  Spec.all_digits d = true ->
  leading_digits tail = [] ->
  leading_digits (d ++ tail) = list_ascii_of_string d.
Proof.
  induction d as [|c d IH]; simpl; intros A T.
  - exact T.
  - apply andb_true_iff in A. destruct A as [A1 A2].
    rewrite A1. f_equal. apply IH; assumption.
Qed.

Lemma parseInt_no_integer (s : string) :
  ~ Spec.leading_integer s -> parseInt (Some s) = NaN.
Proof.
  intros H. destruct (trimStart_split s) as [ws [Hws E]].
  unfold parseInt. destruct (trimStart s) as [|c r] eqn:T.
  { reflexivity. }
  assert (No : forall sign c' r',
             sign = "" \/ sign = "+" \/ sign = "-" ->
             String c r = sign ++ String c' r' ->
             leading_digits (String c' r') = []).
  { intros sign c' r' Hs Hr. simpl. destruct (is_digit c') eqn:D; [|reflexivity].
    exfalso. apply H. exists ws, sign, c', r'.
    repeat split; try assumption. rewrite E, Hr. reflexivity. }
  destruct (byte_is c 45) eqn:B1.
  { apply byte_is_eq in B1. subst c. destruct r as [|c' r']; [reflexivity|].
    rewrite (No "-" c' r'); [reflexivity|tauto|reflexivity]. }
  destruct (byte_is c 43) eqn:B2.
  { apply byte_is_eq in B2. subst c. destruct r as [|c' r']; [reflexivity|].
    rewrite (No "+" c' r'); [reflexivity|tauto|reflexivity]. }
  rewrite (No "" c r); [reflexivity|tauto|reflexivity].
Qed.

Lemma parseInt_digits (d tail : string) :
  d <> "" ->
  Spec.all_digits d = true ->
  leading_digits tail = [] ->
  parseInt (Some (d ++ tail)) = of_Z (digits_value (list_ascii_of_string d)).
Proof.
  intros N A T. destruct d as [|c d]; [contradiction|].
  pose proof A as A'. simpl in A'. apply andb_true_iff in A'.
  destruct A' as [D _].
  unfold parseInt. change (String c d ++ tail) with (String c (d ++ tail)).
  rewrite (trimStart_digit c _ D).
  rewrite (digit_not_byte c 45 D), (digit_not_byte c 43 D) by lia.
  change (String c (d ++ tail)) with (String c d ++ tail).
  rewrite (leading_digits_app _ _ A T).
  simpl list_ascii_of_string. cbv iota beta.
  f_equal. destruct (digits_value (c :: list_ascii_of_string d)); reflexivity.
Qed.

Lemma digit_value_nonneg (c : ascii) :
  is_digit c = true -> (0 <= digit_value c)%Z.
Proof.
  intros D. apply digit_bounds in D. unfold digit_value. lia.
Qed.

Lemma digits_value_from (ds : list ascii) (acc : Z) :
  forallb is_digit ds = true -> (0 <= acc)%Z ->
  (0 <= fold_left (fun a d => 10 * a + digit_value d)%Z ds acc)%Z.
Proof.
  revert acc. induction ds as [|d ds IH]; intros acc H A; cbn [fold_left];
    [exact A|].
  simpl in H. apply andb_true_iff in H. destruct H as [Hd Hs].
  apply IH; [exact Hs|]. pose proof (digit_value_nonneg d Hd). lia.
Qed.

Lemma all_digits_list (s : string) :
  Spec.all_digits s = forallb is_digit (list_ascii_of_string s).
Proof. induction s as [|c s IH]; simpl; [reflexivity|]. rewrite IH. reflexivity. Qed.

Lemma digits_value_nonneg (d : string) :
  Spec.all_digits d = true ->
  (0 <= digits_value (list_ascii_of_string d))%Z.
Proof.
  intros A. unfold digits_value. apply digits_value_from; [|lia].
  rewrite <- all_digits_list. exact A.
Qed.

(** From 2^53 on, rounding yields a double of at least 2^53, or
    [Infinity]. *)
Lemma round_large (n : Z) :
  (2 ^ 53 <= n)%Z ->
  round n = Infinity false
  \/ exists v, round n = Finite v /\ (2 ^ 53 <= v)%Z.
Proof.
  intros L. unfold round.
  assert (B : (n <? 2 ^ 53)%Z = false) by (apply Z.ltb_ge; exact L).
  rewrite B. cbv zeta.
  set (k := Z.log2 n).
  assert (P : (0 < n)%Z) by (pose proof (Z.pow_pos_nonneg 2 53); lia).
  assert (K : (53 <= k)%Z).
  { unfold k. rewrite <- (Z.log2_pow2 53) by lia.
    apply Z.log2_le_mono. exact L. }
  destruct (Z.log2_spec n P) as [Lo _]. fold k in Lo.
  set (shift := (k - 52)%Z).
  assert (S0 : (0 <= shift)%Z) by (unfold shift; lia).
  assert (Pw : (2 ^ k = 2 ^ 52 * 2 ^ shift)%Z).
  { unfold shift. rewrite <- Z.pow_add_r by lia. f_equal. lia. }
  assert (Ps : (2 <= 2 ^ shift)%Z).
  { change 2%Z with (2 ^ 1)%Z at 1. apply Z.pow_le_mono_r; unfold shift; lia. }
  set (q := Z.shiftr n shift).
  assert (Q : (2 ^ 52 <= q)%Z).
  { unfold q. rewrite Z.shiftr_div_pow2 by exact S0.
    apply Z.div_le_lower_bound; lia. }
  match goal with
  | |- context [if ?c then (q + 1)%Z else q] =>
      set (q' := if c then (q + 1)%Z else q)
  end.
  assert (Q' : (q <= q')%Z) by (unfold q'; destruct (_ || _); lia).
  destruct (Z.shiftl q' shift <? 2 ^ 1024)%Z; [|left; reflexivity].
  right. eexists. split; [reflexivity|].
  rewrite Z.shiftl_mul_pow2 by exact S0.
  assert (T : (2 ^ 53 = 2 ^ 52 * 2)%Z) by reflexivity.
  rewrite T. apply Z.mul_le_mono_nonneg; lia.
Qed.

(** A positive integer has a positive Number value. *)
Lemma round_positive (n : Z) :
  (0 < n)%Z ->
  round n = Infinity false \/ exists v, round n = Finite v /\ (0 < v)%Z.
Proof.
  intros L. destruct (Z.lt_ge_cases n (2 ^ 53)) as [B|B].
  - right. exists n. split; [|exact L].
    unfold round. apply Z.ltb_lt in B. rewrite B. reflexivity.
  - destruct (round_large n B) as [I|[v [V Lv]]]; [left; exact I|].
    right. exists v. split; [exact V|].
    assert (T : (0 < 2 ^ 53)%Z) by reflexivity. lia.
Qed.

(** What line 16 makes of a string that starts with the digits [d]. *)
Lemma port_digits (d tail : string) :
  d <> "" ->
  Spec.all_digits d = true ->
  leading_digits tail = [] ->
  port (Some (d ++ tail)) =
    if (digits_value (list_ascii_of_string d) =? 0)%Z then Finite 3000
    else round (digits_value (list_ascii_of_string d)).
Proof.
  intros N A T. unfold port. rewrite (parseInt_digits d tail N A T).
  pose proof (digits_value_nonneg d A) as G.
  set (n := digits_value (list_ascii_of_string d)) in *.
  unfold of_Z.
  assert (E : (n <? 0)%Z = false) by (apply Z.ltb_ge; exact G).
  rewrite E. destruct (n =? 0)%Z eqn:Z0.
  - apply Z.eqb_eq in Z0. rewrite Z0. reflexivity.
  - apply Z.eqb_neq in Z0.
    destruct (round_positive n) as [I|[v [V Lv]]]; [lia| |].
    + rewrite I. reflexivity.
    + rewrite V.
      assert (Zv : (v =? 0)%Z = false) by (apply Z.eqb_neq; lia).
      rewrite Zv. reflexivity.
Qed.

(** An integer up to 2^53 is its own Number value. *)
Lemma of_Z_exact (n : Z) :
  (0 <= n <= 2 ^ 53)%Z -> of_Z n = Finite n.
Proof.
  intros [L U]. unfold of_Z.
  assert (E : (n <? 0)%Z = false) by (apply Z.ltb_ge; exact L).
  rewrite E. destruct (Z.eq_dec n (2 ^ 53)) as [E53|N53].
  - subst n. vm_compute. reflexivity.
  - unfold round.
    assert (B : (n <? 2 ^ 53)%Z = true) by (apply Z.ltb_lt; lia).
    rewrite B. reflexivity.
Qed.

End ParseInt.

(** The wording of C7 fails: [8080abc] is not numeric, yet the server does
    not fall back to 3000 but binds 8080. *)
Lemma C7_counterexample : ~ Spec.port_selection.
Proof.
  intros (_ & _ & H). specialize (H "8080abc" eq_refl). discriminate H.
Qed.

(** C7, amended. With PORT set to [8080] the server binds 8080; with PORT
    absent, or not beginning (after optional white space and an optional
    sign) with a decimal digit, it binds 3000; when PORT begins with decimal
    digits the port is the Number value of those digits, whatever follows
    them: the value itself up to 2^53 and the nearest double beyond; it is
    3000 when that value is zero; so [8080abc] binds 8080. *)
Theorem C7_port_selection :
  start (Some "8080") = Listening 8080
  /\ start None = Listening 3000
  /\ (forall s, ~ Spec.leading_integer s -> start (Some s) = Listening 3000)
  /\ (forall d tail,
        d <> "" ->
        Spec.all_digits d = true ->
        Number.leading_digits tail = [] ->
        let n := Number.digits_value (list_ascii_of_string d) in
        port (Some (d ++ tail)) =
          if (n =? 0)%Z then Finite 3000 else Number.round n)
  /\ (forall n, (0 <= n < 2 ^ 53)%Z -> Number.round n = Finite n)
  /\ start (Some "8080abc") = Listening 8080.
Proof.
  split; [reflexivity|]. split; [reflexivity|]. split; [|split; [|split]].
  - intros s H. unfold start, port.
    rewrite (parseInt_no_integer s H). reflexivity.
  - intros d tail N A T n. exact (port_digits d tail N A T).
  - intros n [L U]. unfold Number.round.
    assert (B : (n <? 2 ^ 53)%Z = true) by (apply Z.ltb_lt; exact U).
    rewrite B. reflexivity.
  - reflexivity.
Qed.

Lemma abc_no_integer : ~ Spec.leading_integer "abc".
Proof.
  intros (ws & sign & c & rest & W & S & D & E).
  inversion W; subst; simpl in E.
  - destruct S as [S|[S|S]]; subst sign; simpl in E; inversion E.
    subst c. discriminate D.
  - inversion E. subst. discriminate.
  - inversion E. subst. discriminate.
  - inversion E. subst. discriminate.
Qed.

Lemma C7_port_selection_witness :
  port (Some "443 ") = 443%Z
  /\ port (Some "000x") = 3000%Z
  /\ port (Some "9007199254740993") = 9007199254740992%Z
  /\ start (Some "abc") = Listening 3000.
Proof.
  destruct C7_port_selection as (_ & _ & H0 & H & _).
  split; [|split; [|split]].
  - exact (H "443" " " ltac:(discriminate) eq_refl eq_refl).
  - exact (H "000" "x" ltac:(discriminate) eq_refl eq_refl).
  - exact (H "9007199254740993" "" ltac:(discriminate) eq_refl eq_refl).
  - exact (H0 "abc" abc_no_integer).
Defined.

(** ** Path resolution *)

(** The wording of C9 fails: on the sample host, installed in [/srv/app]
    and started from [/home/wise], the file read for [/index.html] is
    [/srv/app/index.html], not [/home/wise/index.html]. *)
Lemma C9_counterexample : ~ Spec.resolved_from_cwd.
Proof.
  intros H.
  specialize (H sample_host (GET "/index.html") "/index.html"
                eq_refl eq_refl).
  discriminate H.
Qed.

(** C9, amended. For a request that is not for the API and whose URL path
    decodes, the one path handed to the file reader is [__dirname], the
    directory that holds server.js, joined with the percent-decoded URL
    path; the working directory of the process plays no part. *)
Theorem C9_resolved_from_dirname :
  forall (h : Host) (req : IncomingMessage) (decoded : string),
    route req = StaticFiles ->
    decodeURIComponent (urlPath req) = Normal decoded ->
    reads (handle h req) = [Path.join [__dirname h; decoded]].
Proof.
  intros h req decoded R D. unfold handle.
  apply server_reads; assumption.
Qed.

Lemma C9_resolved_from_dirname_witness :
  reads (handle sample_host (GET "/index.html")) = ["/srv/app/index.html"].
Proof.
  exact (C9_resolved_from_dirname sample_host (GET "/index.html")
           "/index.html" eq_refl eq_refl).
Defined.

(** ** Facts on paths *)

Section PathFacts.

Import Path.

Lemma append_assoc (a b c : string) : (a ++ b) ++ c = a ++ (b ++ c).
Proof. induction a as [|x a IH]; simpl; [reflexivity|]. f_equal. exact IH. Qed.

Lemma append_length (a b : string) :
  String.length (a ++ b) = String.length a + String.length b.
Proof. induction a as [|x a IH]; simpl; [reflexivity|]. f_equal. exact IH. Qed.

Lemma prefix_length (a b : string) :
  String.prefix a b = true -> String.length a <= String.length b.
Proof.
  revert b. induction a as [|x a IH]; intros b H; simpl.
  - lia.
  - destruct b as [|y b]; simpl in H; [discriminate|].
    destruct (ascii_dec x y); [|discriminate].
    apply IH in H. simpl. lia.
Qed.

Lemma no_slash_app (a b : string) :
  no_slash (a ++ b) = no_slash a && no_slash b.
Proof.
  induction a as [|x a IH]; simpl; [reflexivity|].
  rewrite IH. apply andb_assoc.
Qed.

Lemma split_no_slash (s : string) : no_slash s = true -> split s = [s].
Proof.
  induction s as [|c s IH]; simpl; intros H; [reflexivity|].
  apply andb_true_iff in H. destruct H as [H1 H2].
  apply negb_true_iff in H1. rewrite H1, (IH H2). reflexivity.
Qed.

Lemma split_segment (s rest : string) :
  no_slash s = true -> split (s ++ "/" ++ rest) = s :: split rest.
Proof.
  change ("/" ++ rest) with (String SLASH rest).
  induction s as [|c s IH]; simpl; intros H; [reflexivity|].
  apply andb_true_iff in H. destruct H as [H1 H2].
  apply negb_true_iff in H1. rewrite H1, (IH H2). reflexivity.
Qed.

(** Splitting undoes joining. *)
Lemma split_join (l : list string) :
  l <> [] -> forallb no_slash l = true -> split (join_with "/" l) = l.
Proof.
  induction l as [|x l IH]; intros N H; [contradiction|].
  simpl in H. apply andb_true_iff in H. destruct H as [Hx Hl].
  destruct l as [|y l].
  - simpl. apply split_no_slash. exact Hx.
  - change (join_with "/" (x :: y :: l))
      with (x ++ "/" ++ join_with "/" (y :: l)).
    rewrite (split_segment _ _ Hx). f_equal. apply IH; [discriminate|exact Hl].
Qed.

(** What follows the last slash stays in the last segment. *)
Lemma split_app_last (x y : string) :
  no_slash y = true ->
  exists init s, split x = (init ++ [s])%list
                 /\ split (x ++ y) = (init ++ [(s ++ y)%string])%list.
Proof.
  intros Hy. induction x as [|c x IH].
  - exists [], "". split; [reflexivity|]. simpl. apply split_no_slash. exact Hy.
  - destruct IH as (init & s & E1 & E2). simpl.
    destruct (Ascii.eqb c SLASH).
    + exists ("" :: init), s. rewrite E1, E2. split; reflexivity.
    + rewrite E1, E2. destruct init as [|i init].
      * exists [], (String c s). split; reflexivity.
      * exists (String c i :: init), s. split; reflexivity.
Qed.

Lemma push_ordinary (b : bool) (res : list string) (seg : string) :
  ordinary seg = true -> push_segment b res seg = seg :: res.
Proof.
  unfold ordinary, push_segment. intros H.
  repeat (apply andb_true_iff in H; destruct H as [H ?]).
  repeat match goal with
  | E : negb _ = true |- _ => apply negb_true_iff in E; rewrite E
  end.
  reflexivity.
Qed.

Lemma fold_push_ordinary (b : bool) (l res : list string) :
  forallb ordinary l = true ->
  fold_left (push_segment b) l res = (rev l ++ res)%list.
Proof.
  revert res. induction l as [|x l IH]; intros res H; simpl; [reflexivity|].
  simpl in H. apply andb_true_iff in H. destruct H as [Hx Hl].
  rewrite (push_ordinary _ _ _ Hx), (IH _ Hl), <- app_assoc. reflexivity.
Qed.

Lemma join_with_last (sep : string) (l : list string) (t : string) :
  exists pre, join_with sep (l ++ [t]) = pre ++ t.
Proof.
  induction l as [|x l IH].
  - exists "". reflexivity.
  - destruct IH as [pre E].
    exists (x ++ sep ++ pre).
    change (join_with sep ((x :: l) ++ [t]))
      with (join_with sep (x :: (l ++ [t]))).
    destruct (l ++ [t])%list as [|y r] eqn:L.
    + destruct l; discriminate L.
    + change (join_with sep (x :: y :: r))
        with (x ++ sep ++ join_with sep (y :: r)).
      rewrite E, !append_assoc. reflexivity.
Qed.

Lemma append_nonempty (x y : string) : y <> "" -> x ++ y <> "".
Proof. intros N E. destruct x; [contradiction|discriminate E]. Qed.

Lemma trailingSeparator_suffix (x y : string) :
  y <> "" -> no_slash y = true -> trailingSeparator (x ++ y) = false.
Proof.
  intros N H. induction x as [|a x IH].
  - simpl. clear -N H. induction y as [|b y IH]; [contradiction|].
    simpl in H. apply andb_true_iff in H. destruct H as [Hb Hy].
    destruct y as [|b' y].
    + simpl. apply negb_true_iff. exact Hb.
    + apply IH; [discriminate|exact Hy].
  - change (String a x ++ y) with (String a (x ++ y)).
    pose proof (append_nonempty x y N) as N'.
    destruct (x ++ y) eqn:E; [contradiction|]. exact IH.
Qed.

Lemma join_with_app (sep : string) (l1 l2 : list string) :
  l1 <> [] -> l2 <> [] ->
  join_with sep (l1 ++ l2) = join_with sep l1 ++ sep ++ join_with sep l2.
Proof.
  intros N1 N2. induction l1 as [|x l1 IH]; [contradiction|].
  destruct l1 as [|y l1].
  - destruct l2 as [|z l2]; [contradiction|]. reflexivity.
  - change (join_with sep ((x :: y :: l1) ++ l2))
      with (x ++ sep ++ join_with sep ((y :: l1) ++ l2)).
    rewrite IH by discriminate.
    change (join_with sep (x :: y :: l1))
      with (x ++ sep ++ join_with sep (y :: l1)).
    rewrite !append_assoc. reflexivity.
Qed.

(** A last segment that holds a question mark is an ordinary one. *)
Lemma ordinary_with_query (s b : string) :
  ordinary (s ++ "?" ++ b) = true.
Proof.
  unfold ordinary.
  assert (N : forall t, s ++ "?" ++ b = t ->
                        t <> "" /\ t <> "." /\ t <> "..").
  { intros t E. subst t.
    destruct s as [|c1 [|c2 [|c3 s]]]; repeat split; discriminate. }
  destruct (N _ eq_refl) as (N0 & N1 & N2).
  apply str_eq_false in N0, N1, N2. rewrite N0, N1, N2. reflexivity.
Qed.

(** Normalizing keeps what follows the last slash when that is an ordinary
    segment. *)
Lemma normalizeString_keeps_suffix (x y : string) (allowAboveRoot : bool) :
  no_slash y = true ->
  (forall s, ordinary (s ++ y) = true) ->
  exists pre, normalizeString (x ++ y) allowAboveRoot = pre ++ y.
Proof.
  intros H O. unfold normalizeString.
  destruct (split_app_last x y H) as (init & s & _ & E). rewrite E.
  rewrite fold_left_app. simpl.
  rewrite (push_ordinary _ _ _ (O s)). simpl.
  destruct (join_with_last "/"
              (rev (fold_left (push_segment allowAboveRoot) init []))
              (s ++ y)) as [pre P].
  rewrite P. exists (pre ++ s). rewrite !append_assoc. reflexivity.
Qed.

Lemma normalize_keeps_suffix (x y : string) :
  y <> "" -> no_slash y = true ->
  (forall s, ordinary (s ++ y) = true) ->
  exists pre, normalize (x ++ y) = pre ++ y.
Proof.
  intros N H O. unfold normalize.
  pose proof (append_nonempty x y N) as NE. apply str_eq_false in NE.
  rewrite NE, (trailingSeparator_suffix x y N H).
  destruct (normalizeString_keeps_suffix x y
              (negb (isAbsolute (x ++ y))) H O) as [pre P].
  rewrite P.
  pose proof (append_nonempty pre y N) as NP. apply str_eq_false in NP.
  rewrite NP.
  destruct (isAbsolute (x ++ y)).
  - exists ("/" ++ pre). rewrite !append_assoc. reflexivity.
  - exists pre. reflexivity.
Qed.

(** The path read for a URL with a query keeps the question mark and the
    query, when the query holds no slash. *)
Lemma join_keeps_query (root a b : string) :
  no_slash b = true ->
  exists pre, join [root; a ++ "?" ++ b] = pre ++ "?" ++ b.
Proof.
  intros H. unfold join.
  assert (T : truthy (a ++ "?" ++ b) = true).
  { unfold truthy. apply negb_true_iff. apply str_eq_false.
    apply append_nonempty. discriminate. }
  assert (Hq : no_slash ("?" ++ b) = true) by exact H.
  assert (Nq : "?" ++ b <> "") by discriminate.
  cbn [filter]. rewrite T. destruct (truthy root).
  - change (join_with "/" [root; a ++ "?" ++ b])
      with (root ++ "/" ++ a ++ "?" ++ b).
    replace (root ++ "/" ++ a ++ "?" ++ b)
      with ((root ++ "/" ++ a) ++ "?" ++ b)
      by (rewrite !append_assoc; reflexivity).
    apply normalize_keeps_suffix; [exact Nq|exact Hq|].
    intros s. apply ordinary_with_query.
  - change (join_with "/" [a ++ "?" ++ b]) with (a ++ "?" ++ b).
    apply normalize_keeps_suffix; [exact Nq|exact Hq|].
    intros s. apply ordinary_with_query.
Qed.

Lemma ordinary_nonempty (s : string) : ordinary s = true -> s <> "".
Proof.
  unfold ordinary. intros H E. subst s. discriminate H.
Qed.

Lemma ordinary_not_dotdot (s : string) :
  ordinary s = true -> s === ".." = false.
Proof.
  unfold ordinary. intros H.
  apply andb_true_iff in H. destruct H as [_ H].
  apply negb_true_iff. exact H.
Qed.

(** Joining [/..] to a normalized absolute directory yields its parent. *)
Lemma join_parent (init : list string) (last : string) :
  forallb no_slash (init ++ [last]) = true ->
  forallb ordinary (init ++ [last]) = true ->
  join ["/" ++ join_with "/" (init ++ [last]); "/.."] =
    "/" ++ join_with "/" init.
Proof.
  intros HS HO.
  set (segs := (init ++ [last])%list) in *.
  assert (NS : segs <> []) by (subst segs; destruct init; discriminate).
  assert (P : join_with "/" ["/" ++ join_with "/" segs; "/.."] =
              join_with "/" ("" :: segs ++ [""; ".."])).
  { change (join_with "/" ["/" ++ join_with "/" segs; "/.."])
      with (("/" ++ join_with "/" segs) ++ "/" ++ "/..").
    destruct (segs ++ [""; ".."])%list as [|z r] eqn:E.
    { destruct segs; discriminate E. }
    change (join_with "/" ("" :: z :: r)) with ("/" ++ join_with "/" (z :: r)).
    rewrite <- E, join_with_app by (assumption || discriminate).
    rewrite !append_assoc. reflexivity. }
  unfold join. cbn [filter].
  change (truthy ("/" ++ join_with "/" segs)) with true.
  change (truthy "/..") with true. cbv iota.
  rewrite P.
  assert (SP : split (join_with "/" ("" :: segs ++ [""; ".."])) =
               "" :: (segs ++ [""; ".."])%list).
  { apply split_join; [discriminate|].
    simpl. rewrite forallb_app, HS. reflexivity. }
  assert (TS : trailingSeparator (join_with "/" ("" :: segs ++ [""; ".."]))
               = false).
  { replace ("" :: segs ++ [""; ".."])%list
      with (("" :: segs ++ [""]) ++ [".."])%list
      by (simpl; rewrite <- app_assoc; reflexivity).
    rewrite join_with_app by discriminate.
    replace (join_with "/" ("" :: segs ++ [""]) ++ "/" ++ join_with "/" [".."])
      with ((join_with "/" ("" :: segs ++ [""]) ++ "/") ++ "..")
      by (rewrite !append_assoc; reflexivity).
    apply trailingSeparator_suffix; [discriminate|reflexivity]. }
  assert (NZ : normalizeString (join_with "/" ("" :: segs ++ [""; ".."])) false
               = join_with "/" init).
  { unfold normalizeString. rewrite SP. cbn [fold_left].
    change (push_segment false [] "") with (@nil string).
    rewrite fold_left_app, (fold_push_ordinary _ _ _ HO), app_nil_r.
    cbn [fold_left]. change (push_segment false (rev segs) "") with (rev segs).
    subst segs. rewrite rev_unit. unfold push_segment.
    change ((".." === "") || (".." === ".")) with false.
    change (".." === "..") with true. cbv iota.
    rewrite forallb_app in HO. apply andb_true_iff in HO.
    destruct HO as [_ HL]. simpl in HL. rewrite andb_true_r in HL.
    rewrite (ordinary_not_dotdot _ HL), rev_involutive. reflexivity. }
  unfold normalize. rewrite TS.
  destruct (segs ++ [""; ".."])%list as [|z r] eqn:E.
  { destruct segs; discriminate E. }
  change (join_with "/" ("" :: z :: r)) with ("/" ++ join_with "/" (z :: r))
    in *.
  change (("/" ++ join_with "/" (z :: r)) === "") with false.
  change (isAbsolute ("/" ++ join_with "/" (z :: r))) with true.
  cbv iota. change (negb true) with false. rewrite NZ.
  destruct (join_with "/" init === "") eqn:Z; [|reflexivity].
  apply str_eq_true in Z. rewrite Z. reflexivity.
Qed.

Lemma join_with_longer (init : list string) (last : string) :
  last <> "" ->
  String.length (join_with "/" init)
  < String.length (join_with "/" (init ++ [last])).
Proof.
  intros N. destruct init as [|x init].
  - simpl. destruct last; [contradiction|simpl; lia].
  - rewrite join_with_app by discriminate.
    rewrite !append_length. simpl. lia.
Qed.

(** A shorter path is not inside a directory. *)
Lemma shorter_not_inside (root path : string) :
  String.length path < String.length root -> Spec.inside root path = false.
Proof.
  intros L. unfold Spec.inside. apply orb_false_iff. split.
  - apply str_eq_false. intros E. subst path. lia.
  - destruct (String.prefix (root ++ "/") path) eqn:P; [|reflexivity].
    apply prefix_length in P. rewrite append_length in P. simpl in P. lia.
Qed.

End PathFacts.

(** An extension is empty or starts with a dot, also once lower-cased, so
    it never names a property that [mimeTypes] inherits. *)
Lemma extname_shape (path : string) :
  Path.extname path = "" \/ exists t, Path.extname path = String DOT t.
Proof.
  unfold Path.extname.
  destruct (Path.at_last_dot _) as [[after before]|]; [|left; reflexivity].
  destruct before as [|c before]; [left; reflexivity|].
  cbv zeta.
  match goal with
  | |- context [if ?b then _ else _] => destruct b
  end.
  - left. reflexivity.
  - right. eexists. reflexivity.
Qed.

Lemma toLowerCase_dot (t : string) :
  exists t', toLowerCase (String DOT t) = String DOT t'.
Proof.
  destruct t as [|c2 [|c3 t3]]; eexists; reflexivity.
Qed.

Lemma extname_not_inherited (path : string) :
  ~ In (toLowerCase (Path.extname path)) Object_prototype_keys.
Proof.
  destruct (extname_shape path) as [E|[t E]]; rewrite E.
  - simpl. intuition discriminate.
  - destruct (toLowerCase_dot t) as [t' L]. rewrite L.
    simpl. intuition discriminate.
Qed.

(** ** Traversal *)

(** C8. Whatever path the join yields is read and served, with no check
    that it stays under the base directory; and when the base directory is a
    normalized absolute path other than the root directory, the request
    [/%2e%2e] makes the server read the parent of the base directory, which
    lies outside it.  On the sample host, [/%2e%2e/secret.txt] is answered
    with the content of [/srv/secret.txt], a file outside [/srv/app]. *)
Theorem C8_traversal :
  (forall (h : Host) (req : IncomingMessage) (decoded : string)
          (content : list byte),
     route req = StaticFiles ->
     decodeURIComponent (urlPath req) = Normal decoded ->
     has_null_byte (Path.join [__dirname h; decoded]) = false ->
     readFile h (Path.join [__dirname h; decoded]) = inr content ->
     exists res, respond h req = Normal res
                 /\ statusCode res = 200%Z /\ body res = content)
  /\ (forall (h : Host) (m : string) (init : list string) (last : string),
        forallb Path.no_slash (init ++ [last]) = true ->
        forallb Path.ordinary (init ++ [last]) = true ->
        __dirname h = "/" ++ join_with "/" (init ++ [last]) ->
        decodeURIComponent "/%2e%2e" = Normal "/.."
        /\ reads (handle h {| method := m; url := Some "/%2e%2e" |}) =
             ["/" ++ join_with "/" init]
        /\ Spec.inside (__dirname h) ("/" ++ join_with "/" init) = false)
  /\ (respond sample_host (GET "/%2e%2e/secret.txt") =
        Normal {| statusCode := 200;
                  headers := [("Content-Type", "application/octet-stream")];
                  body := list_byte_of_string "s3cret";
                  writableEnded := true |}
      /\ reads (handle sample_host (GET "/%2e%2e/secret.txt")) =
           ["/srv/secret.txt"]
      /\ Spec.inside (__dirname sample_host) "/srv/secret.txt" = false).
Proof.
  split; [|split].
  - intros h req decoded content R D Z F.
    unfold respond, handle.
    rewrite (server_static h req fresh _ decoded R D Z).
    simpl. rewrite F. eexists. split; [reflexivity|]. split; reflexivity.
  - intros h m init last HS HO E. split; [reflexivity|]. split.
    + unfold handle.
      rewrite (server_reads h {| method := m; url := Some "/%2e%2e" |}
                 fresh _ "/.." eq_refl eq_refl).
      rewrite E, (join_parent init last HS HO). reflexivity.
    + rewrite E. apply shorter_not_inside. simpl. apply -> Nat.succ_lt_mono.
      apply join_with_longer. apply ordinary_nonempty.
      rewrite forallb_app in HO. apply andb_true_iff in HO.
      destruct HO as [_ HL]. simpl in HL. rewrite andb_true_r in HL. exact HL.
  - repeat split.
Qed.

Lemma C8_traversal_witness :
  reads (handle sample_host (GET "/%2e%2e")) = ["/srv"]
  /\ Spec.inside "/srv/app" "/srv" = false.
Proof.
  destruct C8_traversal as (_ & H & _).
  destruct (H sample_host "GET" ["srv"] "app" eq_refl eq_refl eq_refl)
    as (_ & H1 & H2).
  split; [exact H1|exact H2].
Defined.

(** ** Query strings *)

Lemma assoc_in {A : Type} (k : string) (props : list (string * A)) (x : A) :
  assoc k props = Some x -> In k (map fst props).
Proof.
  induction props as [|[k' y] rest IH]; simpl; intros H; [discriminate|].
  destruct (k' === k) eqn:E.
  - left. apply str_eq_true. exact E.
  - right. apply IH. exact H.
Qed.

Lemma question_mark_differs (p q t : string) :
  Spec.has_question_mark t = false -> p ++ "?" ++ q <> t.
Proof.
  intros H E. subst t. induction p as [|c p IH]; simpl in H.
  - discriminate H.
  - apply orb_false_iff in H. destruct H as [_ H]. exact (IH H).
Qed.

Lemma route_with_query (m p q : string) :
  route {| method := m; url := Some (p ++ "?" ++ q) |} = StaticFiles.
Proof.
  apply route_other. apply question_mark_differs. reflexivity.
Qed.

Lemma urlPath_with_query (m p q : string) :
  urlPath {| method := m; url := Some (p ++ "?" ++ q) |} = p ++ "?" ++ q.
Proof.
  apply urlPath_other; apply question_mark_differs; reflexivity.
Qed.

(** The wording of C10 fails: on the sample host no readable file has a
    question mark in its name, yet [/index.html?x/../index.html] is answered
    with the content of [/srv/app/index.html], because the join collapses
    the [..] segment of the query. *)
Lemma C10_counterexample : ~ Spec.query_strings.
Proof.
  intros [_ H].
  destruct (H sample_host "GET" "/index.html" "x/../index.html"
              "/index.html?x/../index.html"
              (list_byte_of_string "<h1>Wise</h1>") eq_refl eq_refl)
    as [E|(file & bytes & Q & F)].
  - discriminate E.
  - unfold sample_host, readFile in F.
    destruct ((file === "/srv/app") || (file === "/srv") || (file === "/"));
      [discriminate F|].
    unfold disk in F.
    destruct (assoc file _) as [text|] eqn:A; [|discriminate F].
    apply assoc_in in A. simpl in A.
    repeat (destruct A as [A|A]; [subst file; discriminate Q|]).
    contradiction.
Qed.

(** C10, amended. A URL with a query is never the API path, so it goes to
    the file resolver ([/api/data?x=1] included); when the whole URL
    decodes, the one path read is the base directory joined with the decoded
    URL, query included, and the answer is the 404 response unless that path
    can be read; when the decoded query holds no slash, the joined path ends
    with the question mark and the query as they are. *)
Theorem C10_query_strings :
  (forall m p q,
     route {| method := m; url := Some (p ++ "?" ++ q) |} = StaticFiles)
  /\ (forall (h : Host) m p q decoded,
        decodeURIComponent (p ++ "?" ++ q) = Normal decoded ->
        let req := {| method := m; url := Some (p ++ "?" ++ q) |} in
        reads (handle h req) = [Path.join [__dirname h; decoded]]
        /\ (has_null_byte (Path.join [__dirname h; decoded]) = false ->
            respond h req = Normal (notFound fresh)
            \/ exists content,
                 readFile h (Path.join [__dirname h; decoded]) = inr content))
  /\ (forall root a b,
        Path.no_slash b = true ->
        exists pre, Path.join [root; a ++ "?" ++ b] = pre ++ "?" ++ b)
  /\ reads (handle sample_host (GET "/api/data?x=1")) =
       ["/srv/app/api/data?x=1"].
Proof.
  split; [|split; [|split]].
  - apply route_with_query.
  - intros h m p q decoded D req.
    assert (D' : decodeURIComponent (urlPath req) = Normal decoded).
    { unfold req. rewrite urlPath_with_query. exact D. }
    split.
    { apply server_reads; [apply route_with_query|exact D']. }
    intros Z. unfold respond, handle.
    rewrite (server_static h req fresh _ decoded (route_with_query m p q) D' Z).
    simpl.
    destruct (readFile h (Path.join [__dirname h; decoded])) as [e|c].
    + left. reflexivity.
    + right. exists c. reflexivity.
  - intros root a b H. apply join_keeps_query. exact H.
  - reflexivity.
Qed.

Lemma C10_query_strings_witness :
  reads (handle sample_host (GET "/style.CSS?v=2")) =
    ["/srv/app/style.CSS?v=2"]
  /\ respond sample_host (GET "/style.CSS?v=2") = Normal (notFound fresh).
Proof.
  destruct C10_query_strings as (_ & H & _).
  destruct (H sample_host "GET" "/style.CSS" "v=2" "/style.CSS?v=2" eq_refl)
    as [R A].
  destruct (A eq_refl) as [N|[content F]].
  - split; [exact R|exact N].
  - discriminate F.
Defined.

(** * Further properties of the listener *)

(** ** Method, shape of the responses, file reads *)

(** X1. The listener never looks at the request method: two requests with
    the same URL are handled in exactly the same way. *)
Theorem X1_method_agnostic :
  forall (h : Host) (req req' : IncomingMessage) (res : ServerResponse)
         (g : Globals),
    url req = url req' ->
    server h req res g = server h req' res g.
Proof.
  intros h [m u] [m' u'] res g E. simpl in E. subst u'. reflexivity.
Qed.

Lemma X1_method_agnostic_witness :
  handle sample_host {| method := "DELETE"; url := Some "/index.html" |} =
  handle sample_host (GET "/index.html").
Proof.
  exact (X1_method_agnostic sample_host
           {| method := "DELETE"; url := Some "/index.html" |}
           (GET "/index.html") fresh module_scope eq_refl).
Defined.

Lemma assoc_in_values {A : Type} (k : string) (props : list (string * A))
  (x : A) :
  assoc k props = Some x -> In x (map snd props).
Proof.
  induction props as [|[k' y] rest IH]; simpl; intros H; [discriminate|].
  destruct (k' === k).
  - left. congruence.
  - right. apply IH. exact H.
Qed.

(** The MIME type chosen is a value of the table or the default. *)
Lemma mimeType_for_range (table : list (string * string)) (ext : string) :
  In (mimeType_for table ext) ("application/octet-stream" :: map snd table).
Proof.
  unfold mimeType_for, or_else.
  destruct (assoc ext table) as [ty|] eqn:A; [|left; reflexivity].
  destruct (truthy ty); [|left; reflexivity].
  right. exact (assoc_in_values _ _ _ A).
Qed.

(** X2. Whenever the listener answers, the response is ended, carries
    exactly one header, Content-Type, and is either the fixed 404 answer
    (text/plain, body [404 Not Found]) or a 200 answer whose Content-Type is
    one of the values of [mimeTypes] or [application/octet-stream]. *)
Theorem X2_response_shape :
  forall (h : Host) (req : IncomingMessage) (res : ServerResponse),
    respond h req = Normal res ->
    writableEnded res = true
    /\ exists ct,
         headers res = [("Content-Type", ct)]
         /\ ((statusCode res = 404%Z
              /\ ct = "text/plain; charset=UTF-8"
              /\ body res = list_byte_of_string "404 Not Found")
             \/ (statusCode res = 200%Z
                 /\ In ct ("application/octet-stream" :: map snd mimeTypes))).
Proof.
  intros h req res. unfold respond, handle.
  destruct (route req) eqn:R.
  - rewrite server_json by assumption. simpl. intros E. inversion E. subst res.
    split; [reflexivity|]. eexists. split; [reflexivity|].
    right. split; [reflexivity|]. simpl. tauto.
  - destruct (decodeURIComponent (urlPath req)) as [d|e] eqn:D.
    + destruct (has_null_byte (Path.join [__dirname h; d])) eqn:Z.
      * rewrite (server_rejected h req fresh _ d R D Z). discriminate.
      * rewrite (server_static h req fresh _ d R D Z). simpl.
        destruct (readFile h (Path.join [__dirname h; d])) as [err|content];
          intros E; inversion E; subst res; (split; [reflexivity|]);
          eexists; (split; [reflexivity|]).
        -- left. repeat split.
        -- right. split; [reflexivity|]. apply mimeType_for_range.
    + rewrite (server_throw h req fresh _ e R D). discriminate.
Qed.

Lemma X2_response_shape_witness :
  respond sample_host (GET "/notes.xyz") =
    Normal (found (list_byte_of_string "n") "application/octet-stream" fresh)
  /\ writableEnded
       (found (list_byte_of_string "n") "application/octet-stream" fresh)
     = true.
Proof.
  split; [reflexivity|].
  exact (proj1 (X2_response_shape sample_host (GET "/notes.xyz")
                  (found (list_byte_of_string "n")
                     "application/octet-stream" fresh) eq_refl)).
Defined.

(** X3. A request for the API reads no file; any other request hands at
    most one path to the file reader; and the handling of a request depends
    on the file system through that path alone: a host with the same base
    directory that yields the same for the paths read handles the request in
    the same way. *)
Theorem X3_single_read :
  forall (h : Host) (req : IncomingMessage),
    (route req = JsonResponder -> reads (handle h req) = [])
    /\ length (reads (handle h req)) <= 1
    /\ (forall h' : Host,
          __dirname h' = __dirname h ->
          (forall p, In p (reads (handle h req)) ->
                     readFile h' p = readFile h p) ->
          handle h' req = handle h req).
Proof.
  intros h req. unfold handle. destruct (route req) eqn:R.
  - rewrite !server_json by assumption. simpl.
    split; [reflexivity|]. split; [lia|].
    intros h' _ _. rewrite server_json by assumption. reflexivity.
  - split; [discriminate|].
    destruct (decodeURIComponent (urlPath req)) as [d|e] eqn:D.
    + destruct (has_null_byte (Path.join [__dirname h; d])) eqn:Z.
      * rewrite (server_rejected h req fresh _ d R D Z). simpl.
        split; [lia|]. intros h' E _.
        rewrite (server_rejected h' req fresh _ d R D); rewrite E;
          [reflexivity|exact Z].
      * rewrite (server_static h req fresh _ d R D Z). simpl.
        split; [lia|]. intros h' E F.
        rewrite (server_static h' req fresh _ d R D); rewrite E;
          [|exact Z].
        simpl. rewrite F by (left; reflexivity). reflexivity.
    + rewrite (server_throw h req fresh _ e R D). simpl.
      split; [lia|]. intros h' _ _.
      rewrite (server_throw h' req fresh _ e R D). reflexivity.
Qed.

Lemma X3_single_read_witness :
  handle {| __dirname := "/srv/app"; cwd := "/";
            readFile := fun _ => inr (list_byte_of_string "<h1>Wise</h1>") |}
         (GET "/") =
  handle sample_host (GET "/").
Proof.
  destruct (X3_single_read sample_host (GET "/")) as (_ & _ & H).
  apply H; [reflexivity|].
  intros p [E|[]]. rewrite <- E. reflexivity.
Defined.

(** ** URLs without escapes *)

Lemma tokens_plain (s : string) :
  no_percent s = true ->
  tokens s = Some (map Lit (list_ascii_of_string s)).
Proof.
  induction s as [|c s IH]; simpl; intros H; [reflexivity|].
  apply andb_true_iff in H. destruct H as [Hc Hs].
  apply negb_true_iff in Hc. rewrite Hc, (IH Hs). reflexivity.
Qed.

Lemma assemble_literals (l : list ascii) :
  assemble (map Lit l) = Some (string_of_list_ascii l).
Proof.
  induction l as [|c l IH]; simpl; [reflexivity|]. rewrite IH. reflexivity.
Qed.

(** Decoding leaves a string without percent sign as it is. *)
Lemma decode_plain (s : string) :
  no_percent s = true -> decodeURIComponent s = Normal s.
Proof.
  intros H. unfold decodeURIComponent.
  rewrite (tokens_plain s H), assemble_literals,
    string_of_list_ascii_of_string.
  reflexivity.
Qed.

Lemma urlPath_plain (req : IncomingMessage) :
  plain_url req = true -> no_percent (urlPath req) = true.
Proof.
  unfold plain_url, urlPath, or_else. destruct (url req) as [u|].
  - intros H. destruct (truthy u).
    + destruct ((u === "/") || (u === "")); [reflexivity|exact H].
    + reflexivity.
  - intros _. reflexivity.
Qed.

(** X4. A request whose URL holds no percent sign never raises the
    [URIError]: decoding leaves its path as it is, and, unless the request
    is for the API, the path read is the base directory joined with the URL
    path itself. *)
Theorem X4_plain_url :
  forall (h : Host) (req : IncomingMessage),
    plain_url req = true ->
    decodeURIComponent (urlPath req) = Normal (urlPath req)
    /\ respond h req <> Throw URIError
    /\ (route req = StaticFiles ->
        reads (handle h req) = [Path.join [__dirname h; urlPath req]]).
Proof.
  intros h req P.
  pose proof (decode_plain _ (urlPath_plain req P)) as D.
  split; [exact D|]. split.
  - destruct (outcomes h req) as [[res [E _]]|[E|[[_ T]|[E _]]]];
      try (rewrite E; discriminate).
    rewrite D in T. discriminate T.
  - intros R. apply server_reads; assumption.
Qed.

Lemma X4_plain_url_witness :
  reads (handle sample_host (GET "/a b/c.txt")) = ["/srv/app/a b/c.txt"].
Proof.
  destruct (X4_plain_url sample_host (GET "/a b/c.txt") eq_refl)
    as (_ & _ & H).
  exact (H eq_refl).
Defined.

(** ** The shape of the paths read *)

Section NormalForm.

Import Path.

Lemma split_nonempty (s : string) : split s <> [].
Proof.
  destruct s as [|c s]; simpl; [discriminate|].
  destruct (Ascii.eqb c SLASH); [discriminate|].
  destruct (split s); discriminate.
Qed.

Lemma split_segments (s : string) : forallb no_slash (split s) = true.
Proof.
  induction s as [|c s IH]; simpl; [reflexivity|].
  destruct (Ascii.eqb c SLASH) eqn:E.
  - exact IH.
  - destruct (split s) as [|seg segs]; simpl in *.
    + rewrite E. reflexivity.
    + rewrite E. exact IH.
Qed.

(** Joining undoes splitting. *)
Lemma join_split (s : string) : join_with "/" (split s) = s.
Proof.
  induction s as [|c s IH]; simpl; [reflexivity|].
  destruct (Ascii.eqb c SLASH) eqn:E.
  - apply Ascii.eqb_eq in E. subst c.
    pose proof (split_nonempty s) as N.
    destruct (split s) as [|y r]; [contradiction|].
    change (join_with "/" ("" :: y :: r)) with ("/" ++ join_with "/" (y :: r)).
    rewrite IH. reflexivity.
  - pose proof (split_nonempty s) as N.
    destruct (split s) as [|seg segs]; [contradiction|].
    destruct segs as [|y r].
    + simpl in *. rewrite IH. reflexivity.
    + change (join_with "/" (String c seg :: y :: r))
        with (String c (seg ++ "/" ++ join_with "/" (y :: r))).
      change (join_with "/" (seg :: y :: r))
        with (seg ++ "/" ++ join_with "/" (y :: r)) in IH.
      rewrite IH. reflexivity.
Qed.

Lemma ordinary_dotdot : ordinary ".." = false.
Proof. reflexivity. Qed.

(** Below the root, [normalizeString] keeps ordinary segments only. *)
Lemma push_keeps_ordinary (res : list string) (seg : string) :
  forallb ordinary res = true ->
  forallb ordinary (push_segment false res seg) = true.
Proof.
  intros H. unfold push_segment.
  destruct (seg === "") eqn:E0; [exact H|].
  destruct (seg === ".") eqn:E1; [exact H|]. cbn [orb].
  destruct (seg === "..") eqn:E2.
  - destruct res as [|last before]; [reflexivity|].
    destruct (last === ".."); [exact H|].
    simpl in H. apply andb_true_iff in H. exact (proj2 H).
  - simpl. rewrite H. unfold ordinary. rewrite E0, E1, E2. reflexivity.
Qed.

Lemma push_keeps_no_slash (b : bool) (res : list string) (seg : string) :
  no_slash seg = true ->
  forallb no_slash res = true ->
  forallb no_slash (push_segment b res seg) = true.
Proof.
  intros S H. unfold push_segment.
  destruct ((seg === "") || (seg === ".")); [exact H|].
  destruct (seg === "..").
  - destruct res as [|last before].
    + destruct b; reflexivity.
    + destruct (last === "..").
      * destruct b; [simpl; exact H|exact H].
      * simpl in H. apply andb_true_iff in H. exact (proj2 H).
  - simpl. rewrite S, H. reflexivity.
Qed.

Lemma fold_keeps (l res : list string) :
  forallb no_slash l = true ->
  forallb no_slash res = true ->
  forallb ordinary res = true ->
  forallb no_slash (fold_left (push_segment false) l res) = true
  /\ forallb ordinary (fold_left (push_segment false) l res) = true.
Proof.
  revert res. induction l as [|seg l IH]; intros res L S O; simpl.
  - split; assumption.
  - simpl in L. apply andb_true_iff in L. destruct L as [Ls Ll].
    apply IH; [exact Ll| |].
    + apply push_keeps_no_slash; assumption.
    + apply push_keeps_ordinary; assumption.
Qed.

Lemma forallb_rev {A : Type} (f : A -> bool) (l : list A) :
  forallb f (rev l) = forallb f l.
Proof.
  induction l as [|x l IH]; simpl; [reflexivity|].
  rewrite forallb_app, IH. simpl. rewrite andb_true_r. apply andb_comm.
Qed.

Lemma join_with_empty (l : list string) :
  forallb ordinary l = true -> join_with "/" l = "" -> l = [].
Proof.
  destruct l as [|x l]; [reflexivity|]. simpl. intros O E.
  apply andb_true_iff in O. destruct O as [Ox _].
  apply ordinary_nonempty in Ox.
  destruct l; [contradiction|]. destruct x; [contradiction|discriminate E].
Qed.

(** Normalizing an absolute path yields a slash followed by ordinary
    segments, and at most one trailing slash. *)
Lemma normalize_absolute (path : string) :
  isAbsolute path = true ->
  exists segs,
    segments_ok segs = true
    /\ (normalize path = directory segs
        \/ (segs <> [] /\ normalize path = directory segs ++ "/")).
Proof.
  intros A. unfold normalize.
  destruct path as [|c path]; [discriminate A|].
  change (String c path === "") with false. cbv iota. rewrite A.
  unfold normalizeString. cbn [negb].
  destruct (fold_keeps (split (String c path)) []
              (split_segments _) eq_refl eq_refl) as [S O].
  set (kept := fold_left (push_segment false) (split (String c path)) [])
    in *.
  exists (rev kept). unfold segments_ok. rewrite !forallb_rev, S, O.
  split; [reflexivity|].
  destruct (join_with "/" (rev kept) === "") eqn:E.
  - left. apply str_eq_true in E. unfold directory. rewrite E. reflexivity.
  - destruct (trailingSeparator (String c path)).
    + right. split.
      * intros N. rewrite N in E. discriminate E.
      * unfold directory. rewrite !append_assoc. reflexivity.
    + left. reflexivity.
Qed.

Lemma join_absolute (root x : string) :
  isAbsolute root = true ->
  exists path, isAbsolute path = true /\ join [root; x] = normalize path.
Proof.
  intros A. destruct root as [|c root]; [discriminate A|].
  unfold join. cbn [filter]. change (truthy (String c root)) with true.
  cbv iota. destruct (truthy x).
  - exists (String c root ++ "/" ++ x). split; [exact A|reflexivity].
  - exists (String c root). split; [exact A|reflexivity].
Qed.

End NormalForm.

(** X6. When the base directory is an absolute path, the path handed to
    the file reader is always a normalized absolute path: a slash followed
    by segments separated by single slashes, none of them empty, [.] or
    [..], with at most one trailing slash. *)
Theorem X6_normalized_path :
  forall (h : Host) (req : IncomingMessage) (p : string),
    Path.isAbsolute (__dirname h) = true ->
    In p (reads (handle h req)) ->
    exists segs,
      segments_ok segs = true
      /\ (p = directory segs \/ (segs <> [] /\ p = directory segs ++ "/")).
Proof.
  intros h req p A. unfold handle. destruct (route req) eqn:R.
  - rewrite server_json by assumption. intros [].
  - destruct (decodeURIComponent (urlPath req)) as [d|e] eqn:D.
    + rewrite (server_reads h req fresh _ d R D). intros [E|[]]. subst p.
      destruct (join_absolute (__dirname h) d A) as [path [Ap Ep]].
      rewrite Ep. apply normalize_absolute. exact Ap.
    + rewrite (server_throw h req fresh _ e R D). intros [].
Qed.

Lemma X6_normalized_path_witness :
  exists segs,
    segments_ok segs = true
    /\ ("/srv/app/c/" = directory segs
        \/ (segs <> [] /\ "/srv/app/c/" = directory segs ++ "/")).
Proof.
  exact (X6_normalized_path sample_host (GET "/a/..//./b/%2e%2e/c/")
           "/srv/app/c/" eq_refl (or_introl eq_refl)).
Defined.

(** ** Containment *)

Section Containment.

Import Path.

Lemma fold_without_dotdot (b : bool) (l acc : list string) :
  forallb not_dotdot l = true ->
  fold_left (push_segment b) l acc = (rev (filter ordinary l) ++ acc)%list.
Proof.
  revert acc. induction l as [|seg l IH]; intros acc H; [reflexivity|].
  simpl in H. apply andb_true_iff in H. destruct H as [Hs Hl].
  unfold not_dotdot in Hs. apply negb_true_iff in Hs.
  cbn [fold_left filter]. rewrite (IH _ Hl).
  unfold push_segment, ordinary. rewrite Hs.
  destruct (seg === ""); [reflexivity|].
  destruct (seg === "."); [reflexivity|].
  cbn [orb negb andb rev]. rewrite <- app_assoc. reflexivity.
Qed.

Lemma filter_ordinary_all (l : list string) :
  forallb ordinary l = true -> filter ordinary l = l.
Proof.
  induction l as [|x l IH]; simpl; intros H; [reflexivity|].
  apply andb_true_iff in H. destruct H as [Hx Hl].
  rewrite Hx, (IH Hl). reflexivity.
Qed.

Lemma ordinary_all_not_dotdot (l : list string) :
  forallb ordinary l = true -> forallb not_dotdot l = true.
Proof.
  induction l as [|x l IH]; simpl; intros H; [reflexivity|].
  apply andb_true_iff in H. destruct H as [Hx Hl].
  unfold not_dotdot at 1. rewrite (ordinary_not_dotdot _ Hx), (IH Hl).
  reflexivity.
Qed.

Lemma append_empty_r (s : string) : s ++ "" = s.
Proof. induction s as [|c s IH]; simpl; [reflexivity|]. f_equal. exact IH. Qed.

Lemma prefix_app (a b : string) : String.prefix a (a ++ b) = true.
Proof.
  induction a as [|c a IH]; simpl; [destruct b; reflexivity|].
  destruct (ascii_dec c c); [exact IH|contradiction].
Qed.

(** The normal form of an absolute path that is given by its segments and
    has no [..] among them. *)
Lemma normalize_listed (l : list string) :
  l <> [] ->
  forallb no_slash l = true ->
  forallb not_dotdot l = true ->
  normalize ("/" ++ join_with "/" l) =
    if join_with "/" (filter ordinary l) === "" then "/"
    else "/" ++ join_with "/" (filter ordinary l)
         ++ (if trailingSeparator ("/" ++ join_with "/" l) then "/" else "").
Proof.
  intros N S D. unfold normalize.
  change (("/" ++ join_with "/" l) === "") with false.
  change (isAbsolute ("/" ++ join_with "/" l)) with true.
  cbv iota. cbn [negb]. unfold normalizeString.
  change (split ("/" ++ join_with "/" l))
    with ("" :: split (join_with "/" l)).
  rewrite (split_join l N S). cbn [fold_left].
  change (push_segment false [] "") with (@nil string).
  rewrite (fold_without_dotdot _ _ _ D), app_nil_r, rev_involutive.
  destruct (join_with "/" (filter ordinary l) === ""); [reflexivity|].
  destruct (trailingSeparator ("/" ++ join_with "/" l)).
  - reflexivity.
  - rewrite append_empty_r. reflexivity.
Qed.

Lemma join_with_ordinary_nonempty (l : list string) :
  l <> [] -> forallb ordinary l = true -> join_with "/" l === "" = false.
Proof.
  intros N O. apply str_eq_false. intros E.
  apply (join_with_empty l O) in E. contradiction.
Qed.

(** What [path.join] yields for a normalized absolute directory and a path
    without [..] segment lies inside the directory. *)
Lemma join_inside (segs : list string) (d : string) :
  segs <> [] ->
  segments_ok segs = true ->
  no_dotdot d = true ->
  Spec.inside (directory segs) (join [directory segs; d]) = true.
Proof.
  intros N OK ND. unfold segments_ok in OK.
  apply andb_true_iff in OK. destruct OK as [S O].
  set (l := if truthy d then split d else []).
  assert (Sl : forallb no_slash l = true).
  { unfold l. destruct (truthy d); [apply split_segments|reflexivity]. }
  assert (Dl : forallb not_dotdot l = true).
  { unfold l. destruct (truthy d); [exact ND|reflexivity]. }
  assert (J : join [directory segs; d] =
              normalize ("/" ++ join_with "/" (segs ++ l))).
  { unfold join, l. cbn [filter].
    change (truthy (directory segs)) with true. cbv iota.
    destruct (truthy d).
    - change (join_with "/" [directory segs; d])
        with (("/" ++ join_with "/" segs) ++ "/" ++ d).
      rewrite join_with_app by (assumption || apply split_nonempty).
      rewrite join_split, !append_assoc. reflexivity.
    - rewrite app_nil_r. reflexivity. }
  rewrite J, normalize_listed.
  - rewrite filter_app, (filter_ordinary_all _ O).
    rewrite join_with_ordinary_nonempty.
    + unfold Spec.inside, directory.
      destruct (filter ordinary l) as [|k ks] eqn:K.
      * rewrite app_nil_r.
        destruct (trailingSeparator _).
        -- apply orb_true_iff. right.
           pose proof (prefix_app (("/" ++ join_with "/" segs) ++ "/") "")
             as P.
           rewrite append_empty_r in P. rewrite !append_assoc in *. exact P.
        -- apply orb_true_iff. left. apply str_eq_true.
           rewrite append_empty_r. reflexivity.
      * apply orb_true_iff. right.
        rewrite join_with_app by (assumption || discriminate).
        pose proof (prefix_app (("/" ++ join_with "/" segs) ++ "/")
                      (join_with "/" (k :: ks)
                       ++ (if trailingSeparator
                                ("/" ++ join_with "/" (segs ++ l))
                           then "/" else ""))) as P.
        rewrite !append_assoc in *. exact P.
    + destruct segs; [contradiction|discriminate].
    + rewrite forallb_app, O.
      apply (forallb_forall ordinary). intros x Hx.
      apply filter_In in Hx. exact (proj2 Hx).
  - destruct segs; [contradiction|discriminate].
  - rewrite forallb_app, S, Sl. reflexivity.
  - rewrite forallb_app, (ordinary_all_not_dotdot _ O), Dl. reflexivity.
Qed.

End Containment.

(** X7. Traversal needs a [..] segment: when the base directory is a
    normalized absolute directory other than the root and the decoded URL
    path has no [..] segment, the path handed to the file reader lies inside
    the base directory. *)
Theorem X7_contained :
  forall (h : Host) (req : IncomingMessage) (segs : list string)
         (decoded p : string),
    segs <> [] ->
    segments_ok segs = true ->
    __dirname h = directory segs ->
    decodeURIComponent (urlPath req) = Normal decoded ->
    no_dotdot decoded = true ->
    In p (reads (handle h req)) ->
    Spec.inside (__dirname h) p = true.
Proof.
  intros h req segs decoded p N OK E D ND. unfold handle.
  destruct (route req) eqn:R.
  - rewrite server_json by assumption. intros [].
  - rewrite (server_reads h req fresh _ decoded R D). intros [P|[]].
    subst p. rewrite E. apply join_inside; assumption.
Qed.

Lemma X7_contained_witness :
  Spec.inside "/srv/app" "/srv/app/a/b.txt" = true.
Proof.
  exact (X7_contained sample_host (GET "/a//./%62.txt") ["srv"; "app"]
           "/a//./b.txt" "/srv/app/a/b.txt"
           ltac:(discriminate) eq_refl eq_refl eq_refl eq_refl
           (or_introl eq_refl)).
Defined.

(** ** The extension that decides the Content-Type *)

Section Extension.

Import Path.

Lemma no_slash_list (s : string) :
  no_slash s = forallb not_slash (list_ascii_of_string s).
Proof. induction s as [|c s IH]; simpl; [reflexivity|]. rewrite IH. reflexivity. Qed.

Lemma no_dot_list (s : string) :
  no_dot s = forallb not_dot (list_ascii_of_string s).
Proof. induction s as [|c s IH]; simpl; [reflexivity|]. rewrite IH. reflexivity. Qed.

Lemma list_ascii_app (a b : string) :
  list_ascii_of_string (a ++ b) =
    (list_ascii_of_string a ++ list_ascii_of_string b)%list.
Proof. induction a as [|c a IH]; simpl; [reflexivity|]. rewrite IH. reflexivity. Qed.

Lemma until_slash_stop (l t : list ascii) :
  forallb not_slash l = true ->
  t = [] \/ (exists t', t = SLASH :: t') ->
  until_slash (l ++ t) = l.
Proof.
  intros H T. induction l as [|c l IH]; simpl.
  - destruct T as [T|[t' T]]; subst t; reflexivity.
  - simpl in H. apply andb_true_iff in H. destruct H as [Hc Hl].
    unfold not_slash in Hc. apply negb_true_iff in Hc. rewrite Hc.
    f_equal. exact (IH Hl).
Qed.

Lemma at_last_dot_found (l1 l2 : list ascii) :
  forallb not_dot l1 = true ->
  at_last_dot (l1 ++ DOT :: l2) = Some (l1, l2).
Proof.
  intros H. induction l1 as [|c l1 IH]; simpl; [reflexivity|].
  simpl in H. apply andb_true_iff in H. destruct H as [Hc Hl].
  unfold not_dot in Hc. apply negb_true_iff in Hc. rewrite Hc, (IH Hl).
  reflexivity.
Qed.

(** The extension of a path whose last component is [name.e]. *)
Lemma extname_last (path name e : string) (t : list ascii) :
  rev (list_ascii_of_string path) =
    (rev (list_ascii_of_string (name ++ "." ++ e)) ++ t)%list ->
  t = [] \/ (exists t', t = SLASH :: t') ->
  no_slash name = true -> no_slash e = true -> no_dot e = true ->
  e <> "" ->
  extname path = if name === "" then "" else String DOT e.
Proof.
  intros P T Sn Se De Ne. unfold extname. rewrite P.
  rewrite list_ascii_app. change ("." ++ e) with (String DOT e).
  cbn [list_ascii_of_string]. rewrite rev_app_distr. cbn [rev].
  rewrite <- !app_assoc. cbn [app].
  set (A := rev (list_ascii_of_string e)).
  set (B := rev (list_ascii_of_string name)).
  assert (SA : forallb not_slash A = true).
  { unfold A. rewrite forallb_rev, <- no_slash_list. exact Se. }
  assert (DA : forallb not_dot A = true).
  { unfold A. rewrite forallb_rev, <- no_dot_list. exact De. }
  assert (SB : forallb not_slash B = true).
  { unfold B. rewrite forallb_rev, <- no_slash_list. exact Sn. }
  assert (NA : A <> []).
  { unfold A. destruct e as [|c e]; [contradiction|].
    simpl. destruct (rev (list_ascii_of_string e)); discriminate. }
  assert (K : skip_slashes (A ++ DOT :: B ++ t) = (A ++ DOT :: B ++ t)%list).
  { destruct A as [|a A']; [contradiction|].
    simpl in SA. apply andb_true_iff in SA. destruct SA as [Sa _].
    unfold not_slash in Sa. apply negb_true_iff in Sa.
    simpl. rewrite Sa. reflexivity. }
  rewrite K.
  replace (A ++ DOT :: B ++ t)%list with ((A ++ DOT :: B) ++ t)%list
    by (rewrite <- app_assoc; reflexivity).
  rewrite until_slash_stop; [|rewrite forallb_app, SA; simpl; exact SB|exact T].
  rewrite (at_last_dot_found A B DA).
  destruct name as [|c name].
  - reflexivity.
  - change (String c name === "") with false. cbv iota.
    destruct B as [|b B'] eqn:EB.
    + exfalso. unfold B in EB. simpl in EB.
      destruct (rev (list_ascii_of_string name)); discriminate EB.
    + cbv zeta. destruct A as [|a A'] eqn:EA; [contradiction|].
      cbv iota. rewrite <- EA. unfold A.
      rewrite rev_involutive, string_of_list_ascii_of_string. reflexivity.
Qed.

Lemma split_slash_last (x comp : string) :
  no_slash comp = true ->
  split (x ++ "/" ++ comp) = (split x ++ [comp])%list.
Proof.
  intros H. change ("/" ++ comp) with (String SLASH comp).
  induction x as [|c x IH]; simpl.
  - rewrite (split_no_slash comp H). reflexivity.
  - destruct (Ascii.eqb c SLASH).
    + rewrite IH. reflexivity.
    + rewrite IH. pose proof (split_nonempty x) as N.
      destruct (split x); [contradiction|reflexivity].
Qed.

(** Normalizing keeps an ordinary last component, after a slash or alone. *)
Lemma normalize_last_component (x comp : string) :
  no_slash comp = true ->
  ordinary comp = true ->
  normalize (x ++ "/" ++ comp) = comp
  \/ exists y, normalize (x ++ "/" ++ comp) = y ++ "/" ++ comp.
Proof.
  intros S O. pose proof (ordinary_nonempty comp O) as N.
  unfold normalize.
  assert (NE : (x ++ "/" ++ comp) === "" = false).
  { apply str_eq_false. apply append_nonempty. discriminate. }
  assert (TS : trailingSeparator (x ++ "/" ++ comp) = false).
  { replace (x ++ "/" ++ comp) with ((x ++ "/") ++ comp)
      by (rewrite append_assoc; reflexivity).
    apply trailingSeparator_suffix; assumption. }
  rewrite NE, TS. unfold normalizeString.
  rewrite (split_slash_last x comp S), fold_left_app. cbn [fold_left].
  rewrite (push_ordinary _ _ _ O). cbn [rev].
  set (kept := rev (fold_left
                      (push_segment (negb (isAbsolute (x ++ "/" ++ comp))))
                      (split x) [])).
  destruct kept as [|k ks].
  - cbn [app join_with]. apply str_eq_false in N. rewrite N.
    destruct (isAbsolute (x ++ "/" ++ comp)).
    + right. exists "". reflexivity.
    + left. reflexivity.
  - rewrite join_with_app by discriminate.
    change (join_with "/" [comp]) with comp.
    assert (NP : (join_with "/" (k :: ks) ++ "/" ++ comp) === "" = false).
    { apply str_eq_false. apply append_nonempty. discriminate. }
    rewrite NP.
    destruct (isAbsolute (x ++ "/" ++ comp)).
    + right. exists ("/" ++ join_with "/" (k :: ks)).
      rewrite !append_assoc. reflexivity.
    + right. exists (join_with "/" (k :: ks)). reflexivity.
Qed.

Lemma component_ordinary (name e : string) :
  e <> "" -> no_dot e = true -> ordinary (name ++ "." ++ e) = true.
Proof.
  intros N D. unfold ordinary.
  assert (H : name ++ "." ++ e <> "" /\ name ++ "." ++ e <> "."
              /\ name ++ "." ++ e <> "..").
  { destruct name as [|c1 [|c2 [|c3 name]]]; simpl; repeat split;
      try discriminate; intros E; inversion E; subst;
      try contradiction; try discriminate.
    all: try (destruct e; discriminate). }
  destruct H as (H0 & H1 & H2).
  apply str_eq_false in H0, H1, H2. rewrite H0, H1, H2. reflexivity.
Qed.

(** The path read for a URL that ends with the component [name.e] has
    the extension of that component. *)
Lemma extname_join (root a name e : string) :
  no_slash name = true -> no_slash e = true -> no_dot e = true ->
  e <> "" ->
  extname (join [root; a ++ "/" ++ name ++ "." ++ e]) =
    if name === "" then "" else String DOT e.
Proof.
  intros Sn Se De Ne.
  set (comp := name ++ "." ++ e).
  assert (Sc : no_slash comp = true).
  { unfold comp. rewrite !no_slash_app, Sn, Se. reflexivity. }
  pose proof (component_ordinary name e Ne De) as Oc. fold comp in Oc.
  assert (J : join [root; a ++ "/" ++ comp] = comp
              \/ exists y, join [root; a ++ "/" ++ comp] = y ++ "/" ++ comp).
  { unfold join. cbn [filter].
    assert (T : truthy (a ++ "/" ++ comp) = true).
    { unfold truthy. apply negb_true_iff. apply str_eq_false.
      apply append_nonempty. discriminate. }
    rewrite T. destruct (truthy root).
    - change (join_with "/" [root; a ++ "/" ++ comp])
        with (root ++ "/" ++ a ++ "/" ++ comp).
      replace (root ++ "/" ++ a ++ "/" ++ comp)
        with ((root ++ "/" ++ a) ++ "/" ++ comp)
        by (rewrite !append_assoc; reflexivity).
      apply normalize_last_component; assumption.
    - apply normalize_last_component; assumption. }
  destruct J as [J|[y J]]; rewrite J.
  - apply (extname_last comp name e []); try assumption.
    + rewrite app_nil_r. reflexivity.
    + left. reflexivity.
  - apply (extname_last _ name e (SLASH :: rev (list_ascii_of_string y)));
      try assumption.
    + rewrite list_ascii_app. change ("/" ++ comp) with (String SLASH comp).
      cbn [list_ascii_of_string]. rewrite rev_app_distr. cbn [rev].
      rewrite <- app_assoc. reflexivity.
    + right. eexists. reflexivity.
Qed.

End Extension.

(** X8. The Content-Type of a file served is decided by the last segment
    of the decoded URL path: when that segment is [name.e], with [e] not
    empty and without dot, the type is the one of the table for [.e]
    lower-cased if [name] is not empty, and [application/octet-stream] if
    it is empty: a file whose name starts with its only dot, such as
    [.html], has no extension. *)
Theorem X8_content_type :
  forall (h : Host) (req : IncomingMessage) (a name e : string)
         (content : list byte),
    route req = StaticFiles ->
    decodeURIComponent (urlPath req) = Normal (a ++ "/" ++ name ++ "." ++ e) ->
    Path.no_slash name = true ->
    Path.no_slash e = true ->
    no_dot e = true ->
    e <> "" ->
    let path := Path.join [__dirname h; a ++ "/" ++ name ++ "." ++ e] in
    has_null_byte path = false ->
    readFile h path = inr content ->
    respond h req =
      Normal
        (found content
           (if name === "" then "application/octet-stream"
            else mimeType_for mimeTypes (toLowerCase ("." ++ e)))
           fresh).
Proof.
  intros h req a name e content R D Sn Se De Ne path Z F. subst path.
  unfold respond, handle.
  rewrite (server_static h req fresh _ _ R D Z). cbv zeta. cbn [completion].
  rewrite F, (extname_join _ a name e Sn Se De Ne).
  destruct (name === ""); reflexivity.
Qed.

Lemma X8_content_type_witness :
  respond sample_host (GET "/style.CSS") =
    Normal (found (list_byte_of_string "body{}") "text/css; charset=UTF-8"
              fresh)
  /\ respond {| __dirname := "/srv/app"; cwd := "/srv/app";
                readFile := fun _ => inr [] |} (GET "/.html") =
       Normal (found [] "application/octet-stream" fresh).
Proof.
  split.
  - exact (X8_content_type sample_host (GET "/style.CSS") "" "style" "CSS"
             (list_byte_of_string "body{}")
             eq_refl eq_refl eq_refl eq_refl eq_refl
             ltac:(discriminate) eq_refl eq_refl).
  - exact (X8_content_type
             {| __dirname := "/srv/app"; cwd := "/srv/app";
                readFile := fun _ => inr [] |}
             (GET "/.html") "" "" "html" []
             eq_refl eq_refl eq_refl eq_refl eq_refl
             ltac:(discriminate) eq_refl eq_refl).
Defined.

(** ** More on the port *)

Section PortRange.

Import Number.

Lemma trimStart_minus (t : string) :
  trimStart (String "-" t) = String "-" t.
Proof.
  destruct t as [|c2 [|c3 t3]]; reflexivity.
Qed.

Lemma parseInt_negative (d tail : string) :
  d <> "" ->
  Spec.all_digits d = true ->
  leading_digits tail = [] ->
  parseInt (Some ("-" ++ d ++ tail)) =
    of_Z (- digits_value (list_ascii_of_string d)).
Proof.
  intros N A T. unfold parseInt.
  change ("-" ++ d ++ tail) with (String "-" (d ++ tail)).
  rewrite trimStart_minus. change (byte_is "-" 45) with true. cbv iota.
  rewrite (leading_digits_app _ _ A T).
  destruct d as [|c d]; [contradiction|].
  cbn [list_ascii_of_string]. cbv iota beta. f_equal.
Qed.

(** White space in front of the value is skipped. *)
Lemma trimStart_white (ws s : string) :
  Spec.WhiteSpace ws -> trimStart (ws ++ s) = trimStart s.
Proof.
  intros W. induction W as [|c ws W1 W IH|c1 c2 ws W2 W IH|c1 c2 c3 ws W3 W IH].
  - reflexivity.
  - cbn [append trimStart]. rewrite W1. exact IH.
  - assert (B : byte_is c1 194 = true).
    { unfold white2 in W2. apply andb_true_iff in W2. exact (proj1 W2). }
    apply byte_is_eq in B. subst c1.
    cbn [append]. cbn [trimStart].
    change (white1 (ascii_of_nat 194)) with false. cbv iota.
    rewrite W2. exact IH.
  - assert (B : white1 c1 = false /\ forall c, white2 c1 c = false).
    { unfold white3 in W3.
      repeat (apply orb_true_iff in W3; destruct W3 as [W3|W3]);
        repeat (apply andb_true_iff in W3; destruct W3 as [W3 ?]);
        match goal with
        | E : byte_is c1 _ = true |- _ => apply byte_is_eq in E; subst c1
        end;
        split; try reflexivity; intros c; reflexivity. }
    destruct B as [B1 B2].
    cbn [append]. cbn [trimStart]. rewrite B1, B2, W3. exact IH.
Qed.

(** The Number value of an integer above 65535 is no port. *)
Lemma large_is_bad_port (n : Z) :
  (65535 < n)%Z ->
  listen match of_Z n with
         | NaN => Finite 3000
         | Finite z => if (z =? 0)%Z then Finite 3000 else Finite z
         | Infinity negative => Infinity negative
         end = BadPort.
Proof.
  intros L. unfold of_Z.
  assert (E : (n <? 0)%Z = false) by (apply Z.ltb_ge; lia).
  rewrite E.
  assert (R : round n = Infinity false
              \/ exists v, round n = Finite v /\ (65535 < v)%Z).
  { destruct (Z.lt_ge_cases n (2 ^ 53)) as [B|B].
    - right. exists n. split; [|exact L].
      unfold round. apply Z.ltb_lt in B. rewrite B. reflexivity.
    - destruct (round_large n B) as [I|[v [V Lv]]]; [left; exact I|].
      right. exists v. split; [exact V|].
      assert (T : (65535 < 2 ^ 53)%Z) by reflexivity. lia. }
  destruct R as [I|[v [V Lv]]].
  - rewrite I. reflexivity.
  - rewrite V.
    assert (Zv : (v =? 0)%Z = false) by (apply Z.eqb_neq; lia).
    rewrite Zv. unfold listen.
    assert (B : (v <=? 65535)%Z = false) by (apply Z.leb_gt; exact Lv).
    rewrite B, andb_false_r. reflexivity.
Qed.

(** The Number value of a negative integer is no port. *)
Lemma negative_is_bad_port (n : Z) :
  (0 < n)%Z ->
  listen match of_Z (- n) with
         | NaN => Finite 3000
         | Finite z => if (z =? 0)%Z then Finite 3000 else Finite z
         | Infinity negative => Infinity negative
         end = BadPort.
Proof.
  intros L. unfold of_Z.
  assert (E : (- n <? 0)%Z = true) by (apply Z.ltb_lt; lia).
  rewrite E, Z.opp_involutive.
  assert (R : round n = Infinity false
              \/ exists v, round n = Finite v /\ (0 < v)%Z).
  { destruct (Z.lt_ge_cases n (2 ^ 53)) as [B|B].
    - right. exists n. split; [|exact L].
      unfold round. apply Z.ltb_lt in B. rewrite B. reflexivity.
    - destruct (round_large n B) as [I|[v [V Lv]]]; [left; exact I|].
      right. exists v. split; [exact V|].
      assert (T : (0 < 2 ^ 53)%Z) by reflexivity. lia. }
  destruct R as [I|[v [V Lv]]].
  - rewrite I. reflexivity.
  - rewrite V. cbn [negate].
    assert (Zv : (- v =? 0)%Z = false) by (apply Z.eqb_neq; lia).
    rewrite Zv. unfold listen.
    assert (B : (0 <=? - v)%Z = false) by (apply Z.leb_gt; lia).
    rewrite B. reflexivity.
Qed.

End PortRange.

(** X9. The default is used only for an absent, unparsable or zero value:
    the port asked for is never 0, and a PORT value that parses to a number
    above 65535 or to a negative number is kept, so that [listen] rejects it
    and the server does not start. *)
Theorem X9_port_range :
  (forall env_PORT, port env_PORT <> 0%Z)
  /\ (forall env_PORT p,
        start env_PORT = Listening p -> (1 <= p <= 65535)%Z)
  /\ (forall d tail,
        d <> "" ->
        Spec.all_digits d = true ->
        Number.leading_digits tail = [] ->
        (65535 < Number.digits_value (list_ascii_of_string d))%Z ->
        start (Some (d ++ tail)) = BadPort)
  /\ (forall d tail,
        d <> "" ->
        Spec.all_digits d = true ->
        Number.leading_digits tail = [] ->
        Number.digits_value (list_ascii_of_string d) <> 0%Z ->
        start (Some ("-" ++ d ++ tail)) = BadPort).
Proof.
  assert (P0 : forall env_PORT, port env_PORT <> 0%Z).
  { intros env. unfold port. destruct (Number.parseInt env) as [|n|b].
    - discriminate.
    - destruct (n =? 0)%Z eqn:E; [discriminate|].
      apply Z.eqb_neq in E. intros F. inversion F. contradiction.
    - discriminate. }
  split; [exact P0|]. split; [|split].
  - intros env p. unfold start, listen.
    destruct (port env) as [|z|b] eqn:PE; try discriminate.
    destruct ((0 <=? z) && (z <=? 65535))%Z eqn:B; [|discriminate].
    intros E. inversion E. subst p.
    assert (NZ : z <> 0%Z).
    { intros Z0. subst z. exact (P0 env PE). }
    apply andb_true_iff in B. destruct B as [B1 B2].
    apply Z.leb_le in B1, B2. lia.
  - intros d tail N A T L. unfold start, port.
    rewrite (parseInt_digits d tail N A T).
    set (n := Number.digits_value (list_ascii_of_string d)) in *.
    apply large_is_bad_port. exact L.
  - intros d tail N A T NZ. unfold start, port.
    rewrite (parseInt_negative d tail N A T).
    pose proof (digits_value_nonneg d A) as G.
    set (n := Number.digits_value (list_ascii_of_string d)) in *.
    apply negative_is_bad_port. lia.
Qed.

Lemma X9_port_range_witness :
  start (Some "70000") = BadPort /\ start (Some "-1") = BadPort.
Proof.
  destruct X9_port_range as (_ & _ & H1 & H2). split.
  - apply (H1 "70000" ""); [discriminate|reflexivity|reflexivity|].
    reflexivity.
  - apply (H2 "1" ""); [discriminate|reflexivity|reflexivity|discriminate].
Defined.

(** X10. White space in front of the PORT value changes nothing. *)
Theorem X10_port_white_space :
  forall ws s : string,
    Spec.WhiteSpace ws -> port (Some (ws ++ s)) = port (Some s).
Proof.
  intros ws s W. unfold port, Number.parseInt.
  rewrite (trimStart_white ws s W). reflexivity.
Qed.

Lemma X10_port_white_space_witness :
  port (Some "  8080") = port (Some "8080").
Proof.
  apply (X10_port_white_space "  " "8080").
  repeat constructor.
Defined.

(** ** Requests that raise no exception *)

Section NullBytes.

Import Path.

Lemma null_free_app (a b : string) :
  null_free (a ++ b) = null_free a && null_free b.
Proof.
  unfold null_free. induction a as [|c a IH]; simpl; [reflexivity|].
  rewrite negb_orb, negb_orb, IH. apply andb_assoc.
Qed.

Lemma join_with_null_free (l : list string) :
  forallb null_free l = true -> null_free (join_with "/" l) = true.
Proof.
  induction l as [|x l IH]; intros H; [reflexivity|].
  simpl in H. apply andb_true_iff in H. destruct H as [Hx Hl].
  destruct l as [|y l]; [exact Hx|].
  change (join_with "/" (x :: y :: l))
    with (x ++ "/" ++ join_with "/" (y :: l)).
  rewrite !null_free_app, Hx, (IH Hl). reflexivity.
Qed.

Lemma null_free_cons (c : ascii) (s : string) :
  null_free (String c s) = null_free (String c "") && null_free s.
Proof. exact (null_free_app (String c "") s). Qed.

Lemma split_null_free (s : string) :
  null_free s = true -> forallb null_free (split s) = true.
Proof.
  induction s as [|c s IH]; intros H; [reflexivity|].
  rewrite null_free_cons in H. apply andb_true_iff in H.
  destruct H as [Hc Hs]. specialize (IH Hs). cbn [split].
  destruct (Ascii.eqb c SLASH).
  - exact IH.
  - destruct (split s) as [|seg segs]; cbn [forallb] in *.
    + rewrite Hc. reflexivity.
    + rewrite null_free_cons, Hc. exact IH.
Qed.

Lemma push_null_free (b : bool) (res : list string) (seg : string) :
  null_free seg = true ->
  forallb null_free res = true ->
  forallb null_free (push_segment b res seg) = true.
Proof.
  intros S H. unfold push_segment.
  destruct ((seg === "") || (seg === ".")); [exact H|].
  destruct (seg === "..").
  - destruct res as [|last before].
    + destruct b; reflexivity.
    + destruct (last === "..").
      * destruct b; [simpl; exact H|exact H].
      * simpl in H. apply andb_true_iff in H. exact (proj2 H).
  - simpl. rewrite S, H. reflexivity.
Qed.

Lemma fold_null_free (b : bool) (l res : list string) :
  forallb null_free l = true ->
  forallb null_free res = true ->
  forallb null_free (fold_left (push_segment b) l res) = true.
Proof.
  revert res. induction l as [|seg l IH]; intros res L H; simpl; [exact H|].
  simpl in L. apply andb_true_iff in L. destruct L as [Ls Ll].
  apply IH; [exact Ll|]. apply push_null_free; assumption.
Qed.

Lemma normalize_null_free (path : string) :
  null_free path = true -> null_free (normalize path) = true.
Proof.
  intros H. unfold normalize.
  destruct (path === ""); [reflexivity|].
  assert (P : forall b, null_free (normalizeString path b) = true).
  { intros b. unfold normalizeString. apply join_with_null_free.
    rewrite forallb_rev. apply fold_null_free; [|reflexivity].
    apply split_null_free. exact H. }
  specialize (P (negb (isAbsolute path))).
  destruct (normalizeString path (negb (isAbsolute path)) === "").
  - destruct (isAbsolute path); [reflexivity|].
    destruct (trailingSeparator path); reflexivity.
  - destruct (trailingSeparator path), (isAbsolute path);
      rewrite ?null_free_app, ?P; reflexivity.
Qed.

(** Joining paths without null byte yields a path without null byte. *)
Lemma join_null_free (root x : string) :
  null_free root = true -> null_free x = true ->
  null_free (join [root; x]) = true.
Proof.
  intros Hr Hx. unfold join. cbn [filter].
  destruct (truthy root), (truthy x); try reflexivity;
    apply normalize_null_free.
  - change (join_with "/" [root; x]) with (root ++ "/" ++ x).
    rewrite !null_free_app, Hr, Hx. reflexivity.
  - exact Hr.
  - exact Hx.
Qed.

End NullBytes.

(** X11. For a request whose URL path decodes to a string without null
    byte, on a base directory without null byte, no exception escapes the
    listener: neither [decodeURIComponent] nor [fs.readFile] throws. *)
Theorem X11_no_exception :
  forall (h : Host) (req : IncomingMessage) (decoded : string),
    null_free (__dirname h) = true ->
    decodeURIComponent (urlPath req) = Normal decoded ->
    null_free decoded = true ->
    forall e : JsError, respond h req <> Throw e.
Proof.
  intros h req decoded Hd D Hn e.
  pose proof (join_null_free _ _ Hd Hn) as Z.
  unfold null_free in Z. apply negb_true_iff in Z.
  destruct (outcomes h req) as [[res [E S]]|[E|[[_ T]|[_ [d' [D' Z']]]]]].
  - rewrite E. discriminate.
  - rewrite E. discriminate.
  - rewrite D in T. discriminate T.
  - rewrite D in D'. inversion D'. subst d'. rewrite Z in Z'. discriminate Z'.
Qed.

Lemma X11_no_exception_witness :
  respond sample_host (GET "/no/such/file") <> Throw URIError
  /\ respond sample_host (GET "/no/such/file") <> Throw TypeError.
Proof.
  split;
    exact (X11_no_exception sample_host (GET "/no/such/file") "/no/such/file"
             eq_refl eq_refl eq_refl _).
Defined.

(** ** A read that is refused *)

Lemma join_last_component (root a comp : string) :
  Path.no_slash comp = true ->
  Path.ordinary comp = true ->
  Path.join [root; a ++ "/" ++ comp] = comp
  \/ exists y, Path.join [root; a ++ "/" ++ comp] = y ++ "/" ++ comp.
Proof.
  intros S O. unfold Path.join. cbn [filter].
  assert (T : truthy (a ++ "/" ++ comp) = true).
  { unfold truthy. apply negb_true_iff. apply str_eq_false.
    apply append_nonempty. discriminate. }
  rewrite T. destruct (truthy root).
  - change (join_with "/" [root; a ++ "/" ++ comp])
      with (root ++ "/" ++ a ++ "/" ++ comp).
    replace (root ++ "/" ++ a ++ "/" ++ comp)
      with ((root ++ "/" ++ a) ++ "/" ++ comp)
      by (rewrite !append_assoc; reflexivity).
    apply normalize_last_component; assumption.
  - apply normalize_last_component; assumption.
Qed.

(** The path read for the URL [/%00] holds a null byte, whatever the base
    directory. *)
Lemma null_byte_joined (root : string) :
  has_null_byte (Path.join [root; String "/" (String "000" "")]) = true.
Proof.
  destruct (join_last_component root "" (String "000" "") eq_refl eq_refl)
    as [E|[y E]].
  - change ("" ++ "/" ++ String "000" "") with (String "/" (String "000" ""))
      in E.
    rewrite E. reflexivity.
  - change ("" ++ "/" ++ String "000" "") with (String "/" (String "000" ""))
      in E.
    rewrite E. apply negb_false_iff.
    change (negb (has_null_byte (y ++ "/" ++ String "000" "")))
      with (null_free (y ++ "/" ++ String "000" "")).
    rewrite !null_free_app. apply andb_false_r.
Qed.

(** C3. The claim fails on the code for a read that is refused: for the URL
    [/%00] the listener hands a path with a null byte to [fs.readFile],
    which throws instead of reporting an error to the callback; nothing
    catches the exception, so no response is written, not the 404 one
    either.  Hence not every failed read is answered with the fixed 404. *)
Theorem C3_null_byte_uncaught :
  forall (h : Host) (m : string),
    let req := {| method := m; url := Some "/%00" |} in
    route req = StaticFiles
    /\ Spec.read_fails h req
    /\ handle h req =
         {| completion := Throw TypeError;
            store := module_scope;
            reads := [Path.join [__dirname h; String "/" (String "000" "")]] |}
    /\ ~ Spec.failed_read_is_404 h.
Proof.
  intros h m req.
  assert (R : route req = StaticFiles) by reflexivity.
  assert (D : decodeURIComponent (urlPath req) =
              Normal (String "/" (String "000" ""))) by reflexivity.
  assert (H : handle h req =
              {| completion := Throw TypeError;
                 store := module_scope;
                 reads := [Path.join [__dirname h;
                                      String "/" (String "000" "")]] |}).
  { unfold handle.
    apply (server_rejected h req fresh module_scope _ R D).
    apply null_byte_joined. }
  assert (F : Spec.read_fails h req).
  { eexists. split; [rewrite H; reflexivity|].
    left. apply null_byte_joined. }
  split; [exact R|]. split; [exact F|]. split; [exact H|].
  intros C. specialize (C req R F). unfold respond in C. rewrite H in C.
  discriminate C.
Qed.
